(** * Violentproxy: the proxy engine of [Violentengine.js]

    A shallow embedding of [engine], [finalize] and the two patching providers,
    followed by the properties of the engine that the specification states.

    The engine is event driven.  [engine] itself is the synchronous part that
    Node runs for one client request; everything after it happens in the
    listeners it registers.  The embedding therefore has
    - a [State] for one request: the calls made so far on [localRes], the
      upstream [ClientRequest], the upstream response object, the closure
      variable [data], the pending [zlib.unzip] jobs and the listener table;
    - [engine], which builds the state left behind by the synchronous part;
    - [dispatch], which delivers one runtime event to the listeners that the
      source registered, with the rules of Node's [EventEmitter].

    Nothing in the file is in a [try]: what [url.parse], [request] or
    [writeHead] throw, and what the engine throws itself, reaches the
    'uncaughtException' handler of lines 202-209, which throws it again. *)

From Stdlib Require Import ZArith String Ascii List Bool.
From Stdlib.Strings Require Import Byte.
From stdpp Require Import gmap strings list.

Open Scope Z_scope.
Open Scope string_scope.
Open Scope list_scope.

(** ** Data *)

(** A header mapping is a JS object with string keys.  Keys are compared as JS
    compares property names: exactly, letter case included. *)
Abbreviation Headers := (gmap string string).

(** A [Buffer]: raw bytes. *)
Abbreviation Buffer := (list byte).

(** What the engine reads of the client request ([http.IncomingMessage]). *)
Record IncomingRequest := {
  req_url : string;
  req_method : string;
  req_headers : Headers;
  req_body : Buffer;          (* the bytes the client sends as request body *)
}.

(** The upstream response object [remoteRes]. *)
Record RemoteRes := {
  statusCode : Z;
  statusMessage : string;
  res_headers : Headers;
}.

(** Calls on [localRes] ([http.ServerResponse]), in the order the engine makes
    them.  A call that the response object answers by throwing is in the log
    too: it was made. *)
Inductive ResCall :=
  | WriteHead (code : Z) (reason : string) (headers : Headers)
  | Write (chunk : string)
  | End.

Inductive Transport := Http | Https.

(** The closure variable [data] of the response callback: an array of chunks
    until the 'end' listener replaces it by one [Buffer] (line 63). *)
Inductive DataVar :=
  | Chunks (l : list Buffer)
  | Concatenated (b : Buffer).

(** Event emitters the engine attaches listeners to, and the event names. *)
Inductive Emitter := OnLocalReq | OnRequest | OnRemoteRes.
Inductive EventName := ev_response | ev_data | ev_end | ev_error | ev_aborted.

(** The listeners of the source, named by where they are registered. *)
Inductive Listener :=
  | L_response        (* line 56, the callback given to [request] *)
  | L_data            (* line 59 *)
  | L_end             (* line 62 *)
  | L_error           (* line 84 *)
  | L_aborted         (* line 94 *)
  | L_clientAborted.  (* line 106 *)

(** What the runtime can deliver to a request in flight. *)
Inductive Event :=
  | UpResponse (r : RemoteRes)   (* the upstream request emits 'response' *)
  | UpRequestError               (* the upstream request emits 'error': connect failure, socket hang up *)
  | RemoteData (chunk : Buffer)  (* remoteRes emits 'data' *)
  | RemoteEnd                    (* remoteRes emits 'end' *)
  | RemoteError                  (* remoteRes emits 'error' *)
  | RemoteAborted                (* remoteRes emits 'aborted' *)
  | ClientAborted                (* localReq emits 'aborted' *)
  | UnzipCallback.               (* zlib.unzip calls back for the oldest pending job *)

#[global] Instance Emitter_eq_dec : EqDecision Emitter.
Proof. solve_decision. Defined.
#[global] Instance EventName_eq_dec : EqDecision EventName.
Proof. solve_decision. Defined.
#[global] Instance Listener_eq_dec : EqDecision Listener.
Proof. solve_decision. Defined.

(** ** The modules the engine requires

    [url], [zlib] and [Buffer] belong to Node, not to this repository; the
    engine is modelled over any implementation of them. *)
Inductive Outcome (A : Type) :=
  | Returns (a : A)
  | Throws (err : string).
Arguments Returns {A} _.
Arguments Throws {A} _.

Class Runtime := {
  UrlObject : Type;                          (* the object [url.parse] returns *)
  url_parse : string -> Outcome UrlObject;   (* [url.parse] throws on some targets *)
  url_protocol : UrlObject -> option string; (* its [protocol] property *)
  (* the error [http.request] or [https.request] throws at once for these
     options and headers, if it does: a protocol the transport does not
     speak, a header or path it refuses *)
  request_error : Transport -> UrlObject -> Headers -> option string;
  zlib_unzip : Buffer -> option Buffer;      (* [None]: the callback gets [err] *)
  buffer_toString : Buffer -> string;
}.

(** The two replaceable providers.  Both receive the header object by
    reference, so each returns the header mapping as it left it.  The request
    provider's [result] property is any JS value; only its comparison with the
    four enumerated numbers matters, so it is a [Z]. *)
Class Providers := {
  requestPatchingProvider : Headers -> string -> Headers * Z;
  responsePatchingProvider : Headers -> string -> string -> Headers * string;
}.

(** [exports.requestResult] *)
Module requestResult.
Definition Allow : Z := 0.
Definition Empty : Z := 1.
Definition Deny : Z := 2.
Definition Redirect : Z := 3.
End requestResult.

(** The upstream request built at line 56.  [cr_method] is the [method]
    property of [options]: the engine assigns [headers] to the parsed URL and
    nothing else (lines 18-19).  [cr_body] collects what is written to the
    request before [request.end()]. *)
Record ClientRequest `{Runtime} := {
  cr_transport : Transport;
  cr_options : UrlObject;
  cr_headers : Headers;
  cr_method : option string;
  cr_body : list Buffer;
  cr_ended : bool;
  cr_aborted : bool;
}.

(** The method an upstream request goes out with: Node uses
    [options.method], and 'GET' when the property is absent. *)
Definition effective_method `{Runtime} (r : ClientRequest) : string :=
  default "GET" (cr_method r).

Record State `{Runtime} := {
  st_localReq : IncomingRequest;       (* [localReq]; its headers are mutated in place *)
  st_localRes : list ResCall;          (* calls made on [localRes] *)
  st_policy : option Z;                (* [requestResult.result], once the provider ran *)
  st_request : option ClientRequest;   (* [request], once created *)
  st_remoteRes : option RemoteRes;     (* [remoteRes], once the response arrived *)
  st_data : DataVar;                   (* [data] *)
  st_unzip : list Buffer;              (* inputs of the [zlib.unzip] calls not yet called back *)
  st_listeners : list (Emitter * EventName * Listener);
  st_crashed : option string;          (* the exception that reached 'uncaughtException' *)
}.

(** ** The fixed responses *)

Definition server_headers : Headers :=
  {[ "Content-Type" := "text/plain"; "Server" := "Violentproxy Proxy Server" ]}.

Definition bad_request : list ResCall :=
  [ WriteHead 400 "Bad Request" server_headers;
    Write "The request that Violentproxy received is not valid because it would cause internal request loop.";
    End ].

Definition empty_ok : list ResCall :=
  [ WriteHead 200 "OK" server_headers; End ].

Definition parse_error : list ResCall :=
  [ WriteHead 500 "Data Stream Parse Error" server_headers;
    Write "Violentproxy could not complete your request because there is a data stream parsing error.";
    End ].

Definition read_error : list ResCall :=
  [ WriteHead 500 "Data Stream Read Error" server_headers;
    Write "Violentproxy could not complete your request because there is a data stream read error.";
    End ].

Definition broken_pipe : list ResCall :=
  [ WriteHead 502 "Broken Pipe / Remote Server Disconnected" server_headers;
    Write "Violentproxy could not complete your request because remote server closed the connection.";
    End ].

(** A terminal write is a completed response: one call of [localRes.end()]. *)
Definition is_end (c : ResCall) : bool :=
  match c with End => true | _ => false end.

Definition terminal_writes (log : list ResCall) : nat :=
  length (filter (fun c => is_end c = true) log).

(** The number of [writeHead] calls in a log, and whether there is one: from
    the first [writeHead] on the headers count as sent. *)
Definition is_head (c : ResCall) : bool :=
  match c with WriteHead _ _ _ => true | _ => false end.


Definition headers_sent (log : list ResCall) : bool := existsb is_head log.

(** ** State updates *)

Section Engine.
Context `{RT : Runtime} `{PV : Providers}.

Definition init (localReq : IncomingRequest) : State :=
  {| st_localReq := localReq; st_localRes := []; st_policy := None;
     st_request := None; st_remoteRes := None; st_data := Chunks [];
     st_unzip := []; st_listeners := []; st_crashed := None |}.

Definition set_policy (headers : Headers) (result : Z) (st : State) : State :=
  {| st_localReq := {| req_url := req_url (st_localReq st);
                       req_method := req_method (st_localReq st);
                       req_headers := headers;
                       req_body := req_body (st_localReq st) |};
     st_localRes := st_localRes st; st_policy := Some result;
     st_request := st_request st; st_remoteRes := st_remoteRes st;
     st_data := st_data st; st_unzip := st_unzip st;
     st_listeners := st_listeners st; st_crashed := st_crashed st |}.

Definition set_request (r : ClientRequest) (st : State) : State :=
  {| st_localReq := st_localReq st; st_localRes := st_localRes st;
     st_policy := st_policy st; st_request := Some r;
     st_remoteRes := st_remoteRes st; st_data := st_data st;
     st_unzip := st_unzip st; st_listeners := st_listeners st;
     st_crashed := st_crashed st |}.

Definition set_remoteRes (r : RemoteRes) (st : State) : State :=
  {| st_localReq := st_localReq st; st_localRes := st_localRes st;
     st_policy := st_policy st; st_request := st_request st;
     st_remoteRes := Some r; st_data := st_data st;
     st_unzip := st_unzip st; st_listeners := st_listeners st;
     st_crashed := st_crashed st |}.

Definition set_data (d : DataVar) (st : State) : State :=
  {| st_localReq := st_localReq st; st_localRes := st_localRes st;
     st_policy := st_policy st; st_request := st_request st;
     st_remoteRes := st_remoteRes st; st_data := d;
     st_unzip := st_unzip st; st_listeners := st_listeners st;
     st_crashed := st_crashed st |}.

Definition set_unzip (jobs : list Buffer) (st : State) : State :=
  {| st_localReq := st_localReq st; st_localRes := st_localRes st;
     st_policy := st_policy st; st_request := st_request st;
     st_remoteRes := st_remoteRes st; st_data := st_data st;
     st_unzip := jobs; st_listeners := st_listeners st;
     st_crashed := st_crashed st |}.

Definition set_listeners (ls : list (Emitter * EventName * Listener))
    (st : State) : State :=
  {| st_localReq := st_localReq st; st_localRes := st_localRes st;
     st_policy := st_policy st; st_request := st_request st;
     st_remoteRes := st_remoteRes st; st_data := st_data st;
     st_unzip := st_unzip st; st_listeners := ls;
     st_crashed := st_crashed st |}.

(** [emitter.on(name, listener)] *)
Definition on (e : Emitter) (n : EventName) (l : Listener) (st : State) : State :=
  set_listeners (st_listeners st ++ [(e, n, l)]) st.

(** [process.on("uncaughtException", ...)], lines 202-209: the banner is
    printed and the error is thrown again, which ends the process.  From
    then on no listener of any request runs. *)
Definition uncaughtException (err : string) (st : State) : State :=
  {| st_localReq := st_localReq st; st_localRes := st_localRes st;
     st_policy := st_policy st; st_request := st_request st;
     st_remoteRes := st_remoteRes st; st_data := st_data st;
     st_unzip := st_unzip st; st_listeners := st_listeners st;
     st_crashed := Some err |}.

(** The calls are put on the log of [localRes]. *)
Definition record_calls (calls : list ResCall) (st : State) : State :=
  {| st_localReq := st_localReq st; st_localRes := st_localRes st ++ calls;
     st_policy := st_policy st; st_request := st_request st;
     st_remoteRes := st_remoteRes st; st_data := st_data st;
     st_unzip := st_unzip st; st_listeners := st_listeners st;
     st_crashed := st_crashed st |}.

(** One call on [localRes].  [writeHead] throws when the headers have been
    sent already; nobody catches it. *)
Definition call (c : ResCall) (st : State) : State :=
  if is_head c && headers_sent (st_localRes st)
  then uncaughtException "ERR_HTTP_HEADERS_SENT" (record_calls [c] st)
  else record_calls [c] st.

(** The calls of one listener, in order: after one that throws the rest are
    not made. *)
Fixpoint respond (calls : list ResCall) (st : State) : State :=
  match calls with
  | [] => st
  | c :: calls' =>
      let st' := call c st in
      match st_crashed st' with
      | Some _ => st'
      | None => respond calls' st'
      end
  end.

(** [request.abort()] *)
Definition abort (r : ClientRequest) : ClientRequest :=
  {| cr_transport := cr_transport r; cr_options := cr_options r;
     cr_headers := cr_headers r; cr_method := cr_method r;
     cr_body := cr_body r; cr_ended := cr_ended r; cr_aborted := true |}.

(** ** [finalize], lines 117-128

    The provider and [writeHead] see the same header object
    [remoteRes.headers]; the object is left as [finalize] changed it. *)
Definition finalize (remoteRes : RemoteRes) (url : string)
    (responseText : string) (st : State) : State :=
  let '(patched, text) :=
    responsePatchingProvider (res_headers remoteRes) url responseText in
  let headers := delete "content-length" (<["content-encoding" := "identity"]> patched) in
  let remoteRes' := {| statusCode := statusCode remoteRes;
                       statusMessage := statusMessage remoteRes;
                       res_headers := headers |} in
  respond [ WriteHead (statusCode remoteRes) (statusMessage remoteRes) headers;
            Write text; End ]
          (set_remoteRes remoteRes' st).

(** ** [engine], lines 15-108: the synchronous part

    The [console.log] of line 16 leaves no trace in the state. *)

(** Line 56: the transport is chosen by the protocol of the parsed target. *)
Definition transport_of (options : UrlObject) : Transport :=
  if decide (url_protocol options = Some "https:") then Https else Http.

(** Lines 56-106: create the upstream request, end it at once, and listen
    for the client's disconnect.  [options.headers] is the very object
    [localReq.headers], so the request is created with the headers as the
    provider and line 34 left them.  The call of line 56 is not in a [try]:
    when [request] throws, nothing after it runs. *)
Definition send_request (options : UrlObject) (st : State) : State :=
  let request :=
    {| cr_transport := transport_of options;
       cr_options := options;
       cr_headers := req_headers (st_localReq st);
       cr_method := None;
       cr_body := [];
       cr_ended := true;
       cr_aborted := false |} in
  on OnLocalReq ev_aborted L_clientAborted
    (on OnRequest ev_response L_response (set_request request st)).

Definition proxy (options : UrlObject) (st : State) : State :=
  match request_error (transport_of options) options (req_headers (st_localReq st)) with
  | Some err => uncaughtException err st
  | None => send_request options st
  end.

(** [url.parse] is called at line 18, before the test of line 23, and not in
    a [try] either. *)
Definition engine (localReq : IncomingRequest) : State :=
  match url_parse (req_url localReq) with
  | Throws err => uncaughtException err (init localReq)
  | Returns options =>
      if negb (String.prefix "http" (req_url localReq)) then
        respond bad_request (init localReq)
      else
        let '(headers, result) :=
          requestPatchingProvider (req_headers localReq) (req_url localReq) in
        let st := set_policy (<["accept-encoding" := "gzip, deflate"]> headers)
                             result (init localReq) in
        if (result =? requestResult.Allow)%Z then proxy options st
        else if (result =? requestResult.Empty)%Z then respond empty_ok st
        else if (result =? requestResult.Deny)%Z then proxy options st
        else if (result =? requestResult.Redirect)%Z then proxy options st
        else uncaughtException "Unexpected request result" st
  end.

(** ** The listeners *)

(** Lines 57-102: the response callback keeps [remoteRes], starts [data] as
    the empty array and registers the four listeners on [remoteRes]. *)
Definition on_response (remoteRes : RemoteRes) (st : State) : State :=
  on OnRemoteRes ev_aborted L_aborted
    (on OnRemoteRes ev_error L_error
      (on OnRemoteRes ev_end L_end
        (on OnRemoteRes ev_data L_data
          (set_data (Chunks []) (set_remoteRes remoteRes st))))).

(** Lines 59-61.  After 'end' [data] is a [Buffer], which has no [push]:
    the call throws. *)
Definition on_data (chunk : Buffer) (st : State) : State :=
  match st_data st with
  | Chunks l => set_data (Chunks (l ++ [chunk])) st
  | Concatenated _ => uncaughtException "TypeError: data.push is not a function" st
  end.

(** Lines 62-83.  [Buffer.concat] throws when its argument is not an array.
    [zlib.unzip] is asynchronous: the job is queued and its callback runs on
    a later [UnzipCallback]. *)
Definition on_end (st : State) : State :=
  match st_data st, st_remoteRes st with
  | Chunks l, Some remoteRes =>
      let data := concat l in
      let st := set_data (Concatenated data) st in
      let encoding := res_headers remoteRes !! "content-encoding" in
      if decide (encoding = Some "gzip" \/ encoding = Some "deflate") then
        set_unzip (st_unzip st ++ [data]) st
      else
        finalize remoteRes (req_url (st_localReq st)) (buffer_toString data) st
  | Concatenated _, _ =>
      uncaughtException "TypeError: list argument must be an Array" st
  | _, None => st
  end.

(** Lines 67-78: the callback given to [zlib.unzip]. *)
Definition unzip_callback (result : option Buffer) (st : State) : State :=
  match result, st_remoteRes st with
  | None, _ => respond parse_error st
  | Some result, Some remoteRes =>
      finalize remoteRes (req_url (st_localReq st)) (buffer_toString result) st
  | Some _, None => st
  end.

(** Lines 84-92. *)
Definition on_error (st : State) : State := respond read_error st.

(** Lines 94-102. *)
Definition on_aborted (st : State) : State := respond broken_pipe st.

(** Line 106. *)
Definition on_clientAborted (st : State) : State :=
  match st_request st with
  | Some request => set_request (abort request) st
  | None => st
  end.

(** ** Delivery of events *)

Definition target (ev : Event) : option (Emitter * EventName) :=
  match ev with
  | UpResponse _ => Some (OnRequest, ev_response)
  | UpRequestError => Some (OnRequest, ev_error)
  | RemoteData _ => Some (OnRemoteRes, ev_data)
  | RemoteEnd => Some (OnRemoteRes, ev_end)
  | RemoteError => Some (OnRemoteRes, ev_error)
  | RemoteAborted => Some (OnRemoteRes, ev_aborted)
  | ClientAborted => Some (OnLocalReq, ev_aborted)
  | UnzipCallback => None
  end.

Definition listening (e : Emitter) (n : EventName)
    (l : Emitter * EventName * Listener) : bool :=
  bool_decide (l.1.1 = e) && bool_decide (l.1.2 = n).

(** Run one listener with the event's argument.  A listener does not run
    once an earlier one has thrown.  The response callback is registered
    with [once], so it is removed when it fires. *)
Definition run_listener (ev : Event) (st : State)
    (l : Emitter * EventName * Listener) : State :=
  match st_crashed st with
  | Some _ => st
  | None =>
      match l.2, ev with
      | L_response, UpResponse r =>
          on_response r
            (set_listeners
               (filter (fun l' => l' <> (OnRequest, ev_response, L_response))
                       (st_listeners st)) st)
      | L_data, RemoteData chunk => on_data chunk st
      | L_end, _ => on_end st
      | L_error, _ => on_error st
      | L_aborted, _ => on_aborted st
      | L_clientAborted, _ => on_clientAborted st
      | _, _ => st
      end
  end.

(** [emitter.emit(name, ...)]: the listeners registered for the name run in
    the order of registration; an 'error' event nobody listens to is thrown. *)
Definition emit (e : Emitter) (n : EventName) (ev : Event) (st : State) : State :=
  match List.filter (listening e n) (st_listeners st) with
  | [] =>
      match n with
      | ev_error => uncaughtException "Unhandled 'error' event" st
      | _ => st
      end
  | ls => fold_left (run_listener ev) ls st
  end.

Definition dispatch (st : State) (ev : Event) : State :=
  match st_crashed st with
  | Some _ => st
  | None =>
      match target ev with
      | Some (e, n) => emit e n ev st
      | None =>
          match st_unzip st with
          | [] => st
          | job :: jobs => unzip_callback (zlib_unzip job) (set_unzip jobs st)
          end
      end
  end.

(** The state of a request after the synchronous part and a sequence of
    events. *)
Definition run (st : State) (evs : list Event) : State :=
  fold_left dispatch evs st.

End Engine.

(** ** The providers shipped with the engine, lines 175-199 *)

Definition to_lower (c : ascii) : ascii :=
  let n := nat_of_ascii c in
  if (65 <=? n)%nat && (n <=? 90)%nat then ascii_of_nat (n + 32) else c.

(** Does [s] start with [p], letter case ignored?  Then the part of [s] that
    matched and what follows it. *)
Fixpoint strip_prefix_ci (p s : string) : option (string * string) :=
  match p, s with
  | EmptyString, _ => Some (EmptyString, s)
  | String a p', String b s' =>
      if Ascii.eqb (to_lower a) (to_lower b) then
        match strip_prefix_ci p' s' with
        | Some (m, rest) => Some (String b m, rest)
        | None => None
        end
      else None
  | String _ _, EmptyString => None
  end.

(** [[^>]*>] at the start of [s]: everything up to and including the first
    [>], and what follows it. *)
Fixpoint up_to_gt (s : string) : option (string * string) :=
  match s with
  | EmptyString => None
  | String c s' =>
      if Ascii.eqb c ">" then Some (String c EmptyString, s')
      else match up_to_gt s' with
           | Some (m, rest) => Some (String c m, rest)
           | None => None
           end
  end.

(** [/(<head[^>]*>)/i] at the start of [s]. *)
Definition match_head (s : string) : option (string * string) :=
  match strip_prefix_ci "<head" s with
  | Some (tag, after) =>
      match up_to_gt after with
      | Some (attrs, rest) => Some ((tag ++ attrs)%string, rest)
      | None => None
      end
  | None => None
  end.

Definition hello_script : string :=
  ("<script>console.log(" ++ String "034" "Hello from Violentproxy :)"
   ++ String "034" ");</script>")%string.

(** [text.replace(/(<head[^>]*>)/i, "$1" + script)]: the leftmost match is
    followed by the script, the rest of the text is kept. *)
Fixpoint inject_after_head (text : string) : string :=
  match match_head text with
  | Some (m, rest) => (m ++ hello_script ++ rest)%string
  | None =>
      match text with
      | EmptyString => EmptyString
      | String c text' => String c (inject_after_head text')
      end
  end.

Definition default_providers : Providers :=
  {| requestPatchingProvider := fun headers _ => (headers, requestResult.Allow);
     responsePatchingProvider := fun headers _ text => (headers, inject_after_head text) |}.

(** ** A small runtime to run the engine on concrete requests

    Enough of [url.parse] to find the protocol (the scheme in lower case with
    its colon, as [/^[a-z0-9.+-]+:/i] finds it) and to refuse a target with a
    [[] that no []] follows, as Node refuses such a host; [request] refusing
    a protocol its transport does not speak; bytes read as one character
    each; and a stand-in for [zlib.unzip] that accepts a buffer that starts
    with the gzip magic number and returns what follows the ten header bytes. *)

Definition is_alpha (c : ascii) : bool :=
  let n := nat_of_ascii (to_lower c) in (97 <=? n)%nat && (n <=? 122)%nat.

Definition is_digit (c : ascii) : bool :=
  let n := nat_of_ascii c in (48 <=? n)%nat && (n <=? 57)%nat.

Definition is_scheme_char (c : ascii) : bool :=
  is_alpha c || is_digit c || Ascii.eqb c "+" || Ascii.eqb c "-" || Ascii.eqb c ".".

Fixpoint scheme_then_colon (s : string) : option string :=
  match s with
  | EmptyString => None
  | String c s' =>
      if Ascii.eqb c ":" then Some ":"
      else if is_scheme_char c then
        match scheme_then_colon s' with
        | Some p => Some (String (to_lower c) p)
        | None => None
        end
      else None
  end.

Definition sample_protocol (href : string) : option string :=
  match href with
  | String c _ => if Ascii.eqb c ":" then None else scheme_then_colon href
  | EmptyString => None
  end.

Definition sample_unzip (b : Buffer) : option Buffer :=
  match b with
  | x1f :: x8b :: rest => Some (drop 8 rest)
  | _ => None
  end.

Fixpoint has_char (c : ascii) (s : string) : bool :=
  match s with
  | EmptyString => false
  | String x s' => Ascii.eqb x c || has_char c s'
  end.

Fixpoint unmatched_bracket (s : string) : bool :=
  match s with
  | EmptyString => false
  | String x s' =>
      (Ascii.eqb x "[" && negb (has_char "]" s')) || unmatched_bracket s'
  end.

Definition sample_url_parse (href : string) : Outcome string :=
  if unmatched_bracket href then Throws "ERR_INVALID_URL" else Returns href.

Definition sample_request_error (transport : Transport) (href : string)
    (headers : Headers) : option string :=
  match transport, sample_protocol href with
  | Http, Some protocol =>
      if String.eqb protocol "http:" then None else Some "ERR_INVALID_PROTOCOL"
  | _, _ => None
  end.

Definition sample_runtime : Runtime :=
  {| UrlObject := string;
     url_parse := sample_url_parse;
     url_protocol := sample_protocol;
     request_error := sample_request_error;
     zlib_unzip := sample_unzip;
     buffer_toString := string_of_list_byte |}.

(** ** The specification's notion of an absolute URL

    The specification rejects a target that "is not an absolute URL".  An
    absolute URL starts with a scheme and a colon (RFC 3986: a letter, then
    letters, digits, [+], [-] or [.]).  The engine's own test is
    [localReq.url.startsWith("http")], in [engine]; on the targets Node's
    request parser lets through the two agree. *)

Fixpoint spec_scheme_rest (s : string) : bool :=
  match s with
  | EmptyString => false
  | String c s' =>
      if Ascii.eqb c ":" then true
      else if is_scheme_char c then spec_scheme_rest s' else false
  end.

Definition spec_is_absolute_url (target : string) : bool :=
  match target with
  | String c s' => is_alpha c && spec_scheme_rest s'
  | EmptyString => false
  end.

(** ** Concrete requests and responses used below *)

Definition get_example : IncomingRequest :=
  {| req_url := "http://example.test/"; req_method := "GET";
     req_headers := {[ "host" := "example.test" ]}; req_body := [] |}.

Definition post_example : IncomingRequest :=
  {| req_url := "https://example.test/submit"; req_method := "POST";
     req_headers := {[ "host" := "example.test"; "content-length" := "3" ]};
     req_body := [x61; x3d; x31] |}.

Definition relative_example : IncomingRequest :=
  {| req_url := "/index.html"; req_method := "GET";
     req_headers := {[ "host" := "localhost:12345" ]}; req_body := [] |}.

(** A target that is not an absolute URL and that [url.parse] refuses. *)
Definition unparsable_example : IncomingRequest :=
  {| req_url := "//a:b@[x"; req_method := "GET";
     req_headers := {[ "host" := "localhost:12345" ]}; req_body := [] |}.

(** A target whose protocol neither transport speaks. *)
Definition httpx_example : IncomingRequest :=
  {| req_url := "httpx://example.test/"; req_method := "GET";
     req_headers := {[ "host" := "example.test" ]}; req_body := [] |}.

(** ["<html><head></head></html>"] *)
Definition page_bytes : Buffer :=
  list_byte_of_string "<html><head></head></html>".

(** A gzip member in the stand-in's format: magic number, eight more header
    bytes, payload. *)
Definition gzip_page : Buffer :=
  [x1f; x8b; x08; x00; x00; x00; x00; x00; x00; x03] ++ page_bytes.

Definition gzip_response : RemoteRes :=
  {| statusCode := 200; statusMessage := "OK";
     res_headers := {[ "content-encoding" := "gzip"; "content-length" := "36";
                       "content-type" := "text/html" ]} |}.

Definition deflate_response : RemoteRes :=
  {| statusCode := 200; statusMessage := "OK";
     res_headers := {[ "content-encoding" := "deflate"; "content-length" := "36";
                       "content-type" := "text/html" ]} |}.

Definition plain_response : RemoteRes :=
  {| statusCode := 200; statusMessage := "OK";
     res_headers := {[ "content-length" := "26"; "content-type" := "text/html" ]} |}.

(** A provider that answers [Empty] for every request. *)
Definition empty_providers : Providers :=
  {| requestPatchingProvider := fun headers _ => (headers, requestResult.Empty);
     responsePatchingProvider := fun headers _ text => (headers, text) |}.

(** A provider whose result is none of the four enumerated ones. *)
Definition odd_providers : Providers :=
  {| requestPatchingProvider := fun headers _ => (headers, 7);
     responsePatchingProvider := fun headers _ text => (headers, text) |}.


(** ** Notions used in the statements *)

(** The listener table of a proxied request before the upstream response
    arrives, and from then on. *)
Definition listeners_waiting : list (Emitter * EventName * Listener) :=
  [ (OnRequest, ev_response, L_response);
    (OnLocalReq, ev_aborted, L_clientAborted) ].

Definition listeners_receiving : list (Emitter * EventName * Listener) :=
  [ (OnLocalReq, ev_aborted, L_clientAborted);
    (OnRemoteRes, ev_data, L_data);
    (OnRemoteRes, ev_end, L_end);
    (OnRemoteRes, ev_error, L_error);
    (OnRemoteRes, ev_aborted, L_aborted) ].

(** What holds of a proxied request in every state it can reach. *)
Definition in_flight `{Runtime} (st : State) : Prop :=
  st_request st <> None /\
  ((st_listeners st = listeners_waiting /\ st_remoteRes st = None) \/
   (st_listeners st = listeners_receiving /\ st_remoteRes st <> None)).

(** An upstream response labelled with a content-encoding. *)
Definition with_encoding (encoding : string) (r : RemoteRes) : RemoteRes :=
  {| statusCode := statusCode r; statusMessage := statusMessage r;
     res_headers := <["content-encoding" := encoding]> (res_headers r) |}.



(** ** [exports.start], lines 138-152

    The configuration object: a missing property is [None].  [rules] is
    documented and never read.  The shape of [cert] is the business of
    [https.createServer]; the engine only tests that it is there. *)
Record Config (Cert : Type) := {
  cfg_port : option Z;
  cfg_rules : option string;
  cfg_cert : option Cert;
}.
Arguments cfg_port {Cert} _.
Arguments cfg_rules {Cert} _.
Arguments cfg_cert {Cert} _.

(** The server [start] creates, both kinds with [engine] as request listener,
    and the port it is told to listen on. *)
Inductive ServerKind (Cert : Type) :=
  | PlainServer
  | TlsServer (cert : Cert).
Arguments PlainServer {Cert}.
Arguments TlsServer {Cert} _.

Record Listening (Cert : Type) := {
  srv_kind : ServerKind Cert;
  srv_port : Z;
}.
Arguments srv_kind {Cert} _.
Arguments srv_port {Cert} _.

(** [config = config || {}], [config.port || 12345] (0 is falsy), [if (cert)]. *)
Definition start {Cert : Type} (config : option (Config Cert)) : Listening Cert :=
  let config :=
    default {| cfg_port := None; cfg_rules := None; cfg_cert := None |} config in
  let port :=
    match cfg_port config with
    | Some p => if (p =? 0)%Z then 12345 else p
    | None => 12345
    end in
  {| srv_kind := match cfg_cert config with
                 | Some cert => TlsServer cert
                 | None => PlainServer
                 end;
     srv_port := port |}.

(** ** More notions used in the statements *)

(** Events whose listeners, in the source, make no call on [localRes]: the
    response callback, 'data', and the client's 'aborted'. *)
Definition quiet (ev : Event) : bool :=
  match ev with
  | UpResponse _ | RemoteData _ | ClientAborted => true
  | _ => false
  end.

(** What [/(<head[^>]*>)/i] matches, said without a matcher: five characters
    that read "<head" when letter case is ignored, then characters other than
    [>], then [>]. *)
Definition lower_string (s : string) : string :=
  string_of_list_ascii (map to_lower (list_ascii_of_string s)).

Definition head_tag (m : string) : Prop :=
  exists tag attrs : string,
    m = (tag ++ attrs ++ ">")%string
    /\ lower_string tag = "<head"
    /\ ~ In ">"%char (list_ascii_of_string attrs).

(** [s] occurs in [text] at offset [length before]. *)
Definition occurs_after (before s text : string) : Prop :=
  exists after : string, text = (before ++ s ++ after)%string.

(** The upstream request of [st'] is that of [st], aborted or not. *)
Definition same_upstream `{Runtime} (st st' : State) : Prop :=
  st_request st' = st_request st \/
  exists request, st_request st = Some request /\ st_request st' = Some (abort request).




(** A provider that answers [Deny] for every request. *)
Definition deny_providers : Providers :=
  {| requestPatchingProvider := fun headers _ => (headers, requestResult.Deny);
     responsePatchingProvider := fun headers _ text => (headers, text) |}.

(** A configuration that asks for port 0 and gives a certificate. *)
Definition port_zero_config : Config string :=
  {| cfg_port := Some 0; cfg_rules := None; cfg_cert := Some "certificate" |}.


(** * Properties *)

Section Properties.
Context `{RT : Runtime} `{PV : Providers}.

(** ** Calls on the client response *)

(** Apart from the log and the crash, [respond] leaves the state alone. *)
Lemma call_fields (c : ResCall) (st : State) :
  st_request (call c st) = st_request st
  /\ st_listeners (call c st) = st_listeners st
  /\ st_remoteRes (call c st) = st_remoteRes st
  /\ st_unzip (call c st) = st_unzip st
  /\ st_data (call c st) = st_data st.
Proof. unfold call. destruct (_ && _); repeat split. Qed.

Lemma respond_fields (calls : list ResCall) : forall st : State,
  st_request (respond calls st) = st_request st
  /\ st_listeners (respond calls st) = st_listeners st
  /\ st_remoteRes (respond calls st) = st_remoteRes st
  /\ st_unzip (respond calls st) = st_unzip st
  /\ st_data (respond calls st) = st_data st.
Proof.
  induction calls as [|c calls IH]; intros st; [repeat split|].
  simpl. destruct (call_fields c st) as (E1 & E2 & E3 & E4 & E5).
  destruct (st_crashed (call c st)); [repeat split; assumption|].
  destruct (IH (call c st)) as (-> & -> & -> & -> & ->). repeat split; assumption.
Qed.










(** ** The synchronous part *)

Lemma engine_throws (localReq : IncomingRequest) (err : string) :
  url_parse (req_url localReq) = Throws err ->
  engine localReq = uncaughtException err (init localReq).
Proof. intros Hu. unfold engine. rewrite Hu. reflexivity. Qed.

Lemma engine_not_http (localReq : IncomingRequest) (options : UrlObject) :
  url_parse (req_url localReq) = Returns options ->
  String.prefix "http" (req_url localReq) = false ->
  engine localReq = record_calls bad_request (init localReq).
Proof. intros Hu Hp. unfold engine. rewrite Hu, Hp. reflexivity. Qed.

(** The three ways [engine] can leave a parsed target that starts with
    "http". *)
Lemma engine_http (localReq : IncomingRequest) (options : UrlObject) :
  url_parse (req_url localReq) = Returns options ->
  String.prefix "http" (req_url localReq) = true ->
  let pr := requestPatchingProvider (req_headers localReq) (req_url localReq) in
  let st := set_policy (<["accept-encoding" := "gzip, deflate"]> pr.1) pr.2
                       (init localReq) in
  (pr.2 = requestResult.Empty /\ engine localReq = record_calls empty_ok st) \/
  (pr.2 <> requestResult.Empty /\ engine localReq = proxy options st) \/
  (pr.2 <> requestResult.Empty /\
   engine localReq = uncaughtException "Unexpected request result" st).
Proof.
  intros Hu Hp. unfold engine. rewrite Hu, Hp. simpl.
  destruct (requestPatchingProvider _ _) as [headers result]. simpl.
  destruct (Z.eqb_spec result requestResult.Allow) as [->|Ha].
  { right; left. split; [discriminate | reflexivity]. }
  destruct (Z.eqb_spec result requestResult.Empty) as [->|He].
  { left. split; reflexivity. }
  destruct (Z.eqb_spec result requestResult.Deny) as [->|Hd].
  { right; left. split; [discriminate | reflexivity]. }
  destruct (Z.eqb_spec result requestResult.Redirect) as [->|Hr].
  { right; left. split; [discriminate | reflexivity]. }
  right; right. split; [assumption | reflexivity].
Qed.

(** The ways [engine] leaves any request at all. *)
Lemma engine_cases (localReq : IncomingRequest) :
  (exists err, engine localReq = uncaughtException err (init localReq))
  \/ engine localReq = record_calls bad_request (init localReq)
  \/ exists (options : UrlObject) (headers : Headers) (result : Z),
       let st := set_policy headers result (init localReq) in
       engine localReq = record_calls empty_ok st
       \/ engine localReq = uncaughtException "Unexpected request result" st
       \/ (exists err, engine localReq = uncaughtException err st)
       \/ (request_error (transport_of options) options headers = None
           /\ url_parse (req_url localReq) = Returns options
           /\ engine localReq = send_request options st).
Proof.
  destruct (url_parse (req_url localReq)) as [options|err] eqn:Hu.
  - destruct (String.prefix "http" (req_url localReq)) eqn:Hp.
    + right; right. eexists options, _, _.
      destruct (engine_http localReq options Hu Hp) as [[_ E]|[[_ E]|[_ E]]].
      * left. exact E.
      * rewrite E. unfold proxy. simpl.
        destruct (request_error _ _ _) as [err|] eqn:Hr.
        -- right; right; left. exists err. reflexivity.
        -- right; right; right. repeat split.
      * right; left. exact E.
    + right; left. apply (engine_not_http _ options); assumption.
  - left. exists err. apply engine_throws, Hu.
Qed.

(** A request for which an upstream request exists was parsed and sent. *)
Lemma engine_proxied (localReq : IncomingRequest) :
  st_request (engine localReq) <> None ->
  exists (options : UrlObject) (headers : Headers) (result : Z),
    request_error (transport_of options) options headers = None
    /\ url_parse (req_url localReq) = Returns options
    /\ engine localReq = send_request options (set_policy headers result (init localReq)).
Proof.
  intros Hreq.
  destruct (engine_cases localReq)
    as [[err E] | [E | (options & headers & result & [E | [E | [[err E] | (Hr & Hu & E)]]])]];
    try (rewrite E in Hreq; simpl in Hreq; congruence).
  exists options, headers, result. repeat split; assumption.
Qed.

Lemma engine_policy_empty (localReq : IncomingRequest) :
  st_policy (engine localReq) = Some requestResult.Empty ->
  exists st, engine localReq = record_calls empty_ok st /\
             st_localRes st = [] /\ st_request st = None /\
             st_listeners st = [] /\ st_unzip st = [].
Proof.
  intros Hpol.
  destruct (url_parse (req_url localReq)) as [options|err] eqn:Hu;
    [|rewrite (engine_throws _ _ Hu) in Hpol; discriminate Hpol].
  destruct (String.prefix "http" (req_url localReq)) eqn:Hp;
    [|rewrite (engine_not_http _ _ Hu Hp) in Hpol; discriminate Hpol].
  destruct (engine_http localReq options Hu Hp) as [[_ E]|[[Hne E]|[Hne E]]].
  - eexists. split; [exact E|]. repeat split.
  - exfalso. rewrite E in Hpol. unfold proxy in Hpol.
    destruct (request_error _ _ _); simpl in Hpol; congruence.
  - exfalso. rewrite E in Hpol. simpl in Hpol. congruence.
Qed.

(** Without listeners and pending jobs no event writes to [localRes] or
    creates an upstream request. *)
Lemma dispatch_deaf (st : State) (ev : Event) :
  st_listeners st = [] -> st_unzip st = [] ->
  let st' := dispatch st ev in
  st_listeners st' = [] /\ st_unzip st' = [] /\
  st_localRes st' = st_localRes st /\ st_request st' = st_request st.
Proof.
  intros Hl Hu. unfold dispatch.
  destruct (st_crashed st); [tauto|].
  destruct (target ev) as [[e n]|].
  - unfold emit. rewrite Hl. simpl. destruct n; simpl; tauto.
  - rewrite Hu. tauto.
Qed.

Lemma run_deaf (evs : list Event) : forall st : State,
  st_listeners st = [] -> st_unzip st = [] ->
  st_localRes (run st evs) = st_localRes st /\
  st_request (run st evs) = st_request st.
Proof.
  induction evs as [|ev evs IH]; intros st Hl Hu; [split; reflexivity|].
  destruct (dispatch_deaf st ev Hl Hu) as (Hl' & Hu' & Hres & Hreq).
  simpl. destruct (IH _ Hl' Hu') as [-> ->]. split; assumption.
Qed.

(** C7 (the code at the failing input): [url.parse] runs before the test of
    the target and is not guarded, so a target it refuses, absolute URL or
    not, is thrown to the process handler: the 400 response is not written,
    and nothing is written later. *)
Theorem C7_unparsable_target_unanswered (localReq : IncomingRequest) (err : string) :
  url_parse (req_url localReq) = Throws err ->
  st_crashed (engine localReq) = Some err
  /\ forall evs : list Event,
       st_localRes (run (engine localReq) evs) = []
       /\ st_request (run (engine localReq) evs) = None.
Proof.
  intros Hu. rewrite (engine_throws _ _ Hu). split; [reflexivity|].
  intros evs.
  destruct (run_deaf evs (uncaughtException err (init localReq))) as [-> ->];
    try reflexivity.
  split; reflexivity.
Qed.

(** C8: when the request-patching provider returns [Empty], the engine
    answers exactly 200 "OK" with Content-Type text/plain and no body (no
    [write] call), and no upstream request is made, now or on any later
    event. *)
Theorem C8_empty_outcome (localReq : IncomingRequest) :
  st_policy (engine localReq) = Some requestResult.Empty ->
  forall evs : list Event,
    st_localRes (run (engine localReq) evs) =
      [ WriteHead 200 "OK" server_headers; End ]
    /\ st_request (run (engine localReq) evs) = None
    /\ server_headers !! "Content-Type" = Some "text/plain".
Proof.
  intros Hpol evs.
  destruct (engine_policy_empty _ Hpol) as (st & -> & Hres & Hreq & Hl & Hu).
  destruct (run_deaf evs (record_calls empty_ok st)) as [-> ->]; try assumption.
  simpl. rewrite Hres, Hreq. repeat split.
Qed.

(** C4 (as amended): for an allowed request whose options [request] accepts,
    the upstream request uses the https transport exactly when the parsed
    target's protocol is "https:", is created from the parsed target with
    the client's header object as the provider left it and with
    accept-encoding forced to "gzip, deflate"; no method is set on it,
    nothing is written to it, and it is ended. *)
Theorem C4_upstream_request (localReq : IncomingRequest) (options : UrlObject) :
  url_parse (req_url localReq) = Returns options ->
  st_policy (engine localReq) = Some requestResult.Allow ->
  request_error
    (if decide (url_protocol options = Some "https:") then Https else Http)
    options
    (<["accept-encoding" := "gzip, deflate"]>
       (requestPatchingProvider (req_headers localReq) (req_url localReq)).1) = None ->
  st_request (engine localReq) = Some
    {| cr_transport :=
         if decide (url_protocol options = Some "https:") then Https else Http;
       cr_options := options;
       cr_headers :=
         <["accept-encoding" := "gzip, deflate"]>
           (requestPatchingProvider (req_headers localReq) (req_url localReq)).1;
       cr_method := None;
       cr_body := [];
       cr_ended := true;
       cr_aborted := false |}.
Proof.
  intros Hu Hpol Hr.
  destruct (String.prefix "http" (req_url localReq)) eqn:Hp;
    [|rewrite (engine_not_http _ _ Hu Hp) in Hpol; discriminate Hpol].
  revert Hpol Hr. unfold engine. rewrite Hu, Hp. simpl.
  destruct (requestPatchingProvider _ _) as [headers result]. simpl.
  destruct (Z.eqb_spec result requestResult.Allow) as [->|Ha].
  { intros _ Hr. unfold proxy. simpl. fold (transport_of options) in Hr.
    rewrite Hr. reflexivity. }
  destruct (result =? requestResult.Empty)%Z, (result =? requestResult.Deny)%Z,
           (result =? requestResult.Redirect)%Z;
    unfold proxy; try destruct (request_error _ _ _);
    simpl; intros Hpol; injection Hpol as ->; contradiction.
Qed.
(** ** Events of a proxied request *)

Lemma run_app (st : State) (evs1 evs2 : list Event) :
  run st (evs1 ++ evs2) = run (run st evs1) evs2.
Proof. apply fold_left_app. Qed.

Lemma send_request_in_flight (options : UrlObject) (st : State) :
  st_listeners st = [] -> st_remoteRes st = None -> in_flight (send_request options st).
Proof.
  intros Hl Hr. split; [discriminate|]. left. simpl. rewrite Hl, Hr. split; reflexivity.
Qed.

(** The upstream response arrives: the callback runs once and the four
    listeners on [remoteRes] are in place. *)
Lemma dispatch_response (st : State) (r : RemoteRes) :
  st_crashed st = None -> st_listeners st = listeners_waiting ->
  dispatch st (UpResponse r) =
    on_response r (set_listeners [(OnLocalReq, ev_aborted, L_clientAborted)] st).
Proof.
  intros Hc Hl. destruct st; simpl in *; subst. reflexivity.
Qed.

(** Chunks are only collected. *)
Lemma run_data (chunks : list Buffer) : forall (st : State) (l : list Buffer),
  st_crashed st = None -> st_listeners st = listeners_receiving ->
  st_data st = Chunks l ->
  run st (map RemoteData chunks) = set_data (Chunks (l ++ chunks)) st.
Proof.
  induction chunks as [|c chunks IH]; intros st l Hc Hl Hd.
  - destruct st; simpl in *; subst. rewrite app_nil_r. reflexivity.
  - assert (dispatch st (RemoteData c) = set_data (Chunks (l ++ [c])) st) as E.
    { destruct st; simpl in *; subst. reflexivity. }
    change (run st (map RemoteData (c :: chunks)))
      with (run (dispatch st (RemoteData c)) (map RemoteData chunks)).
    rewrite E, (IH _ (l ++ [c])); try reflexivity; try assumption.
    rewrite <- app_assoc. reflexivity.
Qed.

(** The state of a proxied request once the response and its chunks have
    arrived. *)
Lemma run_response_data (st : State) (r : RemoteRes) (chunks : list Buffer) :
  st_crashed st = None -> st_listeners st = listeners_waiting ->
  run st (UpResponse r :: map RemoteData chunks) =
    set_data (Chunks chunks)
      (on_response r (set_listeners [(OnLocalReq, ev_aborted, L_clientAborted)] st)).
Proof.
  intros Hc Hl.
  change (run st (UpResponse r :: map RemoteData chunks))
    with (run (dispatch st (UpResponse r)) (map RemoteData chunks)).
  rewrite (dispatch_response _ _ Hc Hl).
  rewrite (run_data chunks _ []); try reflexivity. simpl. assumption.
Qed.

(** ** [finalize] *)

Lemma finalize_eq (r : RemoteRes) (url text : string) (st : State) :
  let p := responsePatchingProvider (res_headers r) url text in
  let headers := delete "content-length" (<["content-encoding" := "identity"]> p.1) in
  finalize r url text st =
    respond [ WriteHead (statusCode r) (statusMessage r) headers; Write p.2; End ]
      (set_remoteRes {| statusCode := statusCode r;
                        statusMessage := statusMessage r;
                        res_headers := headers |} st).
Proof.
  unfold finalize. destruct (responsePatchingProvider _ _ _). reflexivity.
Qed.


(** ** End of stream and the decoder *)

Lemma dispatch_end_compressed (st : State) (r : RemoteRes) (l : list Buffer) :
  st_crashed st = None -> st_listeners st = listeners_receiving ->
  st_data st = Chunks l -> st_remoteRes st = Some r ->
  res_headers r !! "content-encoding" = Some "gzip" \/
  res_headers r !! "content-encoding" = Some "deflate" ->
  dispatch st RemoteEnd =
    set_unzip (st_unzip st ++ [concat l]) (set_data (Concatenated (concat l)) st).
Proof.
  intros Hc Hl Hd Hr Henc. destruct st; simpl in *; subst.
  unfold dispatch, emit, run_listener, on_end. simpl.
  destruct (decide _) as [_|Hn]; [reflexivity | contradiction].
Qed.


Lemma dispatch_unzip (st : State) (job : Buffer) (jobs : list Buffer) :
  st_crashed st = None -> st_unzip st = job :: jobs ->
  dispatch st UnzipCallback = unzip_callback (zlib_unzip job) (set_unzip jobs st).
Proof. intros Hc Hu. unfold dispatch. rewrite Hc, Hu. reflexivity. Qed.

(** C6: when the upstream aborts after its response and any number of
    chunks, nothing has been written to the client before, and the client
    gets exactly the 502 "Broken Pipe / Remote Server Disconnected" response
    with its fixed plain-text body. *)
Theorem C6_upstream_abort (localReq : IncomingRequest) (r : RemoteRes)
    (chunks : list Buffer) :
  st_request (engine localReq) <> None ->
  st_localRes (run (engine localReq) (UpResponse r :: map RemoteData chunks)) = []
  /\ st_localRes
       (run (engine localReq) (UpResponse r :: map RemoteData chunks ++ [RemoteAborted])) =
     [ WriteHead 502 "Broken Pipe / Remote Server Disconnected" server_headers;
       Write "Violentproxy could not complete your request because remote server closed the connection.";
       End ]
  /\ server_headers !! "Content-Type" = Some "text/plain".
Proof.
  intros Hreq. destruct (engine_proxied _ Hreq) as (options & h & res & _ & _ & ->).
  rewrite app_comm_cons, run_app, !run_response_data by reflexivity.
  repeat split.
Qed.



(** The state after the response, the chunks and end-of-stream, for a
    response labelled "gzip" or "deflate": one decoder job on the collected
    bytes, nothing written. *)
Lemma run_end_compressed (st : State) (r : RemoteRes) (chunks : list Buffer) :
  st_crashed st = None -> st_listeners st = listeners_waiting ->
  res_headers r !! "content-encoding" = Some "gzip" \/
  res_headers r !! "content-encoding" = Some "deflate" ->
  run st (UpResponse r :: map RemoteData chunks ++ [RemoteEnd]) =
    set_unzip (st_unzip st ++ [concat chunks])
      (set_data (Concatenated (concat chunks))
        (on_response r (set_listeners [(OnLocalReq, ev_aborted, L_clientAborted)] st))).
Proof.
  intros Hc Hl Henc.
  rewrite app_comm_cons, run_app, run_response_data by assumption.
  change (run ?s [RemoteEnd]) with (dispatch s RemoteEnd).
  rewrite (dispatch_end_compressed _ r chunks); try reflexivity; assumption.
Qed.

Lemma lookup_with_encoding (label : string) (r : RemoteRes) :
  res_headers (with_encoding label r) !! "content-encoding" = Some label.
Proof. apply lookup_insert_eq. Qed.

(** C10: the same bytes labelled "gzip" and labelled "deflate" go to the
    same decompression routine as the same input; when it fails both get
    the same 500 "Data Stream Parse Error" response, and when it succeeds
    both hand the same decoded text to [finalize]. *)
Theorem C10_gzip_deflate_same_decoding (localReq : IncomingRequest)
    (r : RemoteRes) (chunks : list Buffer) :
  st_request (engine localReq) <> None ->
  let ended label :=
    run (engine localReq)
        (UpResponse (with_encoding label r) :: map RemoteData chunks ++ [RemoteEnd]) in
  st_unzip (ended "gzip") = [concat chunks]
  /\ st_unzip (ended "deflate") = [concat chunks]
  /\ st_localRes (ended "gzip") = []
  /\ st_localRes (ended "deflate") = []
  /\ (zlib_unzip (concat chunks) = None ->
      forall label, label = "gzip" \/ label = "deflate" ->
        st_localRes (dispatch (ended label) UnzipCallback) =
          [ WriteHead 500 "Data Stream Parse Error" server_headers;
            Write "Violentproxy could not complete your request because there is a data stream parsing error.";
            End ])
  /\ (forall out, zlib_unzip (concat chunks) = Some out ->
      forall label, label = "gzip" \/ label = "deflate" ->
        dispatch (ended label) UnzipCallback =
          finalize (with_encoding label r) (req_url localReq) (buffer_toString out)
                   (set_unzip [] (ended label))).
Proof.
  intros Hreq ended. destruct (engine_proxied _ Hreq) as (options & h & res & _ & _ & E).
  assert (forall label, label = "gzip" \/ label = "deflate" ->
            ended label =
              set_unzip [concat chunks]
                (set_data (Concatenated (concat chunks))
                  (on_response (with_encoding label r)
                    (set_listeners [(OnLocalReq, ev_aborted, L_clientAborted)]
                                   (engine localReq))))) as Hended.
  { intros label Hlabel. unfold ended. rewrite E.
    rewrite run_end_compressed; try reflexivity.
    rewrite lookup_with_encoding. destruct Hlabel as [-> | ->]; auto. }
  repeat split.
  - rewrite Hended by auto. reflexivity.
  - rewrite Hended by auto. reflexivity.
  - rewrite Hended by auto. rewrite E. reflexivity.
  - rewrite Hended by auto. rewrite E. reflexivity.
  - intros Hz label Hlabel. rewrite (Hended _ Hlabel), E.
    rewrite (dispatch_unzip _ (concat chunks) []) by reflexivity.
    rewrite Hz. reflexivity.
  - intros out Hz label Hlabel. rewrite (Hended _ Hlabel), E.
    rewrite (dispatch_unzip _ (concat chunks) []) by reflexivity.
    rewrite Hz. unfold unzip_callback.
    cbn [st_remoteRes set_unzip set_data on_response on set_listeners set_remoteRes].
    reflexivity.
Qed.

(** C2 (the code at the failing input): the upstream request of a proxied
    request has no 'error' listener, so a connect failure is thrown, reaches
    the 'uncaughtException' handler, which throws it again, and the client
    gets no response. *)
Theorem C2_connect_failure_unhandled (localReq : IncomingRequest) :
  st_request (engine localReq) <> None ->
  List.filter (listening OnRequest ev_error) (st_listeners (engine localReq)) = []
  /\ st_crashed (run (engine localReq) [UpRequestError]) = Some "Unhandled 'error' event"
  /\ st_localRes (run (engine localReq) [UpRequestError]) = [].
Proof.
  intros Hreq. destruct (engine_proxied _ Hreq) as (options & h & res & _ & _ & ->).
  repeat split.
Qed.

(** ** Every state of a proxied request *)

Lemma in_flight_respond (calls : list ResCall) (st : State) :
  in_flight st -> in_flight (respond calls st).
Proof.
  unfold in_flight. destruct (respond_fields calls st) as (-> & -> & -> & _).
  tauto.
Qed.

Lemma in_flight_finalize (r : RemoteRes) (url text : string) (st : State) :
  in_flight st -> st_remoteRes st <> None -> in_flight (finalize r url text st).
Proof.
  intros [Hreq Hl] Hr. rewrite finalize_eq. apply in_flight_respond.
  split; [exact Hreq|]. destruct Hl as [[_ Hn]|[Hl _]]; [contradiction|].
  right. split; [exact Hl | discriminate].
Qed.

Ltac flight :=
  unfold in_flight; simpl; split;
  [ congruence
  | first [ left; split; reflexivity
          | right; split; [reflexivity | congruence] ] ].

Ltac flight_written :=
  first [ apply in_flight_respond; flight
        | apply in_flight_finalize; [flight | discriminate] ].

Lemma dispatch_in_flight (st : State) (ev : Event) :
  in_flight st -> in_flight (dispatch st ev).
Proof.
  destruct st as [lreq lres pol req rres dat jobs ls cr].
  unfold in_flight at 1. simpl. intros [Hreq Hl].
  destruct req as [request|]; [clear Hreq | contradiction].
  destruct cr as [err|].
  { unfold dispatch. simpl. split; [discriminate | exact Hl]. }
  destruct Hl as [[-> ->]|[-> Hr]].
  - destruct ev; unfold dispatch, emit, run_listener;
      cbn -[respond finalize]; try solve [flight].
    destruct jobs as [|job jobs]; [flight|].
    unfold unzip_callback. destruct (zlib_unzip job); cbn -[respond finalize];
      [flight | flight_written].
  - destruct rres as [r|]; [clear Hr | contradiction].
    destruct ev; unfold dispatch, emit, run_listener;
      cbn -[respond finalize]; try solve [flight].
    + unfold on_data. cbn -[respond finalize]. destruct dat; flight.
    + unfold on_end. cbn -[respond finalize]. destruct dat as [l|b]; [|flight].
      destruct (decide _); [flight | flight_written].
    + unfold on_error. flight_written.
    + unfold on_aborted. flight_written.
    + destruct jobs as [|job jobs]; [flight|].
      unfold unzip_callback. destruct (zlib_unzip job); cbn -[respond finalize];
        flight_written.
Qed.

Lemma run_in_flight (evs : list Event) : forall st : State,
  in_flight st -> in_flight (run st evs).
Proof.
  induction evs as [|ev evs IH]; intros st Hst; [exact Hst|].
  simpl. apply IH, dispatch_in_flight, Hst.
Qed.

Lemma engine_in_flight (localReq : IncomingRequest) :
  st_request (engine localReq) <> None -> in_flight (engine localReq).
Proof.
  intros Hreq. destruct (engine_proxied _ Hreq) as (options & h & res & _ & _ & ->).
  apply send_request_in_flight; reflexivity.
Qed.

Lemma in_flight_client_listener (st : State) :
  in_flight st ->
  List.filter (listening OnLocalReq ev_aborted) (st_listeners st) =
    [(OnLocalReq, ev_aborted, L_clientAborted)].
Proof. intros [_ [[-> _]|[-> _]]]; reflexivity. Qed.

(** C5 (as amended): whenever the client disconnects while a proxied request
    is in flight, whatever happened before, the upstream request is
    aborted, and the disconnect listener itself makes no call on the client
    response and raises nothing. *)
Theorem C5_client_disconnect_cancels (localReq : IncomingRequest) (evs : list Event) :
  st_request (engine localReq) <> None ->
  st_crashed (run (engine localReq) evs) = None ->
  let st := run (engine localReq) evs in
  let st' := dispatch st ClientAborted in
  (exists request, st_request st' = Some request /\ cr_aborted request = true)
  /\ st_localRes st' = st_localRes st
  /\ st_crashed st' = None.
Proof.
  intros Hreq Hc st st'.
  assert (in_flight st) as Hin by (apply run_in_flight, engine_in_flight, Hreq).
  pose proof (in_flight_client_listener st Hin) as Hl.
  destruct Hin as [Hr _].
  subst st'. unfold dispatch. fold st in Hc. rewrite Hc. simpl.
  unfold emit. rewrite Hl. simpl. unfold run_listener. rewrite Hc. simpl.
  unfold on_clientAborted. destruct (st_request st) as [request|]; [|contradiction].
  simpl. repeat split; [|assumption]. eexists. split; reflexivity.
Qed.

(** ** At most one response *)











(** ** Terminal outcomes *)



End Properties.
(** * The engine on concrete requests *)

Section Examples.
#[local] Existing Instance sample_runtime.
#[local] Existing Instance default_providers.

(** The scenario of a gzip page: the script follows [<head>], the encoding is
    "identity", the length is gone. *)
Example gzip_page_scenario :
  st_localRes
    (run (engine get_example)
         [UpResponse gzip_response; RemoteData gzip_page; RemoteEnd; UnzipCallback]) =
    [ WriteHead 200 "OK"
        {[ "content-encoding" := "identity"; "content-type" := "text/html" ]};
      Write ("<html><head>" ++ hello_script ++ "</head></html>")%string;
      End ].
Proof. vm_compute. reflexivity. Qed.

(** A result that is none of the enumerated ones is thrown as an error before
    anything is written. *)
Example unexpected_result_scenario :
  st_crashed (engine (PV := odd_providers) get_example) = Some "Unexpected request result"
  /\ st_localRes (engine (PV := odd_providers) get_example) = [].
Proof. split; reflexivity. Qed.

(** The leftmost [<head ...>] is matched whatever its letter case and its
    attributes; a text without one is left alone. *)
Example inject_upper_case :
  inject_after_head "<HTML><HEAD lang=en><title>t</title></HEAD>" =
    ("<HTML><HEAD lang=en>" ++ hello_script ++ "<title>t</title></HEAD>")%string.
Proof. reflexivity. Qed.

Example inject_no_head : inject_after_head "plain text > 1" = "plain text > 1".
Proof. reflexivity. Qed.

Lemma get_example_proxied : st_request (engine get_example) <> None.
Proof.
  assert (match st_request (engine get_example) with
          | Some _ => true | None => false end = true) as E
    by (vm_compute; reflexivity).
  intros H. rewrite H in E. discriminate E.
Defined.



Lemma C2_connect_failure_unhandled_witness :
  st_request (engine get_example) <> None
  /\ List.filter (listening OnRequest ev_error) (st_listeners (engine get_example)) = []
  /\ st_crashed (run (engine get_example) [UpRequestError]) = Some "Unhandled 'error' event"
  /\ st_localRes (run (engine get_example) [UpRequestError]) = [].
Proof.
  split; [exact get_example_proxied|].
  exact (C2_connect_failure_unhandled get_example get_example_proxied).
Defined.


(** C4, counterexample.  A POST with a three-byte body is allowed: the
    upstream request goes out as a GET and without body. *)
Lemma C4_counterexample :
  st_policy (engine post_example) = Some requestResult.Allow
  /\ exists request,
       st_request (engine post_example) = Some request
       /\ req_method post_example = "POST"
       /\ effective_method request = "GET"
       /\ req_body post_example = [x61; x3d; x31]
       /\ concat (cr_body request) = [].
Proof.
  split; [reflexivity|]. eexists. split; [reflexivity|]. repeat split.
Qed.

Lemma C4_upstream_request_witness :
  url_parse (req_url post_example) = Returns "https://example.test/submit"%string
  /\ st_policy (engine post_example) = Some requestResult.Allow
  /\ request_error Https "https://example.test/submit"%string
       (<["accept-encoding" := "gzip, deflate"]> (req_headers post_example)) = None
  /\ st_request (engine post_example) = Some
       {| cr_transport := Https;
          cr_options := "https://example.test/submit"%string;
          cr_headers :=
            {[ "host" := "example.test"; "content-length" := "3";
               "accept-encoding" := "gzip, deflate" ]};
          cr_method := None;
          cr_body := [];
          cr_ended := true;
          cr_aborted := false |}.
Proof.
  split; [reflexivity|].
  split; [reflexivity|].
  split; [reflexivity|].
  rewrite (C4_upstream_request (RT := sample_runtime) (PV := default_providers)
             post_example (req_url post_example));
    reflexivity.
Defined.

(** C5, counterexample.  The client disconnects after the upstream response
    has arrived; the upstream request is aborted, and the 'aborted' event
    that follows on the upstream response writes the 502 response to the
    client that has gone. *)
Lemma C5_counterexample :
  let gone := run (engine get_example) [UpResponse gzip_response; ClientAborted] in
  (exists request, st_request gone = Some request /\ cr_aborted request = true)
  /\ st_localRes gone = []
  /\ st_localRes (dispatch gone RemoteAborted) = broken_pipe
  /\ terminal_writes (st_localRes (dispatch gone RemoteAborted)) = 1%nat
  /\ st_localRes (dispatch gone RemoteAborted) <> st_localRes gone.
Proof.
  intros gone.
  split; [eexists; split; reflexivity|].
  split; [reflexivity|].
  split; [reflexivity|].
  split; [reflexivity|].
  intros H. apply (f_equal (@length ResCall)) in H. vm_compute in H. discriminate H.
Qed.

Lemma C5_client_disconnect_cancels_witness :
  st_request (engine get_example) <> None
  /\ st_crashed (run (engine get_example) [UpResponse gzip_response]) = None
  /\ (exists request,
        st_request (dispatch (run (engine get_example) [UpResponse gzip_response])
                             ClientAborted) = Some request
        /\ cr_aborted request = true)
  /\ st_localRes (dispatch (run (engine get_example) [UpResponse gzip_response])
                           ClientAborted)
     = st_localRes (run (engine get_example) [UpResponse gzip_response])
  /\ st_crashed (dispatch (run (engine get_example) [UpResponse gzip_response])
                          ClientAborted) = None.
Proof.
  split; [exact get_example_proxied|].
  split; [reflexivity|].
  apply (C5_client_disconnect_cancels get_example [UpResponse gzip_response]).
  - exact get_example_proxied.
  - reflexivity.
Defined.

Lemma C6_upstream_abort_witness :
  st_request (engine get_example) <> None
  /\ st_localRes (run (engine get_example)
                      (UpResponse gzip_response :: map RemoteData [gzip_page])) = []
  /\ st_localRes (run (engine get_example)
                      (UpResponse gzip_response :: map RemoteData [gzip_page]
                         ++ [RemoteAborted])) =
     [ WriteHead 502 "Broken Pipe / Remote Server Disconnected" server_headers;
       Write "Violentproxy could not complete your request because remote server closed the connection.";
       End ]
  /\ server_headers !! "Content-Type" = Some "text/plain".
Proof.
  split; [exact get_example_proxied|].
  exact (C6_upstream_abort get_example gzip_response [gzip_page] get_example_proxied).
Defined.

Lemma C7_unparsable_target_unanswered_witness :
  spec_is_absolute_url (req_url unparsable_example) = false
  /\ url_parse (req_url unparsable_example) = Throws "ERR_INVALID_URL"
  /\ st_crashed (engine unparsable_example) = Some "ERR_INVALID_URL"
  /\ st_localRes (run (engine unparsable_example) [ClientAborted]) = []
  /\ st_request (run (engine unparsable_example) [ClientAborted]) = None.
Proof.
  split; [reflexivity|].
  assert (url_parse (req_url unparsable_example) = Throws "ERR_INVALID_URL") as Hu
    by reflexivity.
  split; [exact Hu|].
  destruct (C7_unparsable_target_unanswered unparsable_example "ERR_INVALID_URL" Hu)
    as [Hcrash Hafter].
  split; [exact Hcrash|]. exact (Hafter [ClientAborted]).
Defined.

Lemma C8_empty_outcome_witness :
  st_policy (engine (PV := empty_providers) get_example) = Some requestResult.Empty
  /\ st_localRes (run (PV := empty_providers)
                      (engine (PV := empty_providers) get_example) [ClientAborted]) =
       [ WriteHead 200 "OK" server_headers; End ]
  /\ st_request (run (PV := empty_providers)
                     (engine (PV := empty_providers) get_example) [ClientAborted]) = None
  /\ server_headers !! "Content-Type" = Some "text/plain".
Proof.
  split; [reflexivity|].
  apply (C8_empty_outcome (PV := empty_providers) get_example). reflexivity.
Defined.



Lemma C10_gzip_deflate_same_decoding_witness :
  st_request (engine get_example) <> None
  /\ zlib_unzip (concat [gzip_page]) = Some page_bytes
  /\ dispatch
       (run (engine get_example)
            (UpResponse (with_encoding "gzip" plain_response)
               :: map RemoteData [gzip_page] ++ [RemoteEnd]))
       UnzipCallback =
     finalize (with_encoding "gzip" plain_response) (req_url get_example)
              (buffer_toString page_bytes)
              (set_unzip []
                 (run (engine get_example)
                      (UpResponse (with_encoding "gzip" plain_response)
                         :: map RemoteData [gzip_page] ++ [RemoteEnd])))
  /\ dispatch
       (run (engine get_example)
            (UpResponse (with_encoding "deflate" plain_response)
               :: map RemoteData [gzip_page] ++ [RemoteEnd]))
       UnzipCallback =
     finalize (with_encoding "deflate" plain_response) (req_url get_example)
              (buffer_toString page_bytes)
              (set_unzip []
                 (run (engine get_example)
                      (UpResponse (with_encoding "deflate" plain_response)
                         :: map RemoteData [gzip_page] ++ [RemoteEnd]))).
Proof.
  split; [exact get_example_proxied|].
  split; [reflexivity|].
  pose proof (C10_gzip_deflate_same_decoding get_example plain_response [gzip_page]
                get_example_proxied) as (_ & _ & _ & _ & _ & Hsame).
  split; apply (Hsame page_bytes); auto; reflexivity.
Defined.

End Examples.


(** * More of the engine *)

Section Responses.
Context `{RT : Runtime} `{PV : Providers}.

(** ** The other ways a response ends *)


(** X2: when the body of a response labelled "gzip" or "deflate" does not
    decompress, the client gets exactly the 500 "Data Stream Parse Error"
    response, and the upstream response object is left as it arrived: its
    headers were not patched. *)
Theorem decode_failure_response (localReq : IncomingRequest) (r : RemoteRes)
    (chunks : list Buffer) :
  st_request (engine localReq) <> None ->
  res_headers r !! "content-encoding" = Some "gzip" \/
  res_headers r !! "content-encoding" = Some "deflate" ->
  zlib_unzip (concat chunks) = None ->
  st_localRes
    (run (engine localReq)
         (UpResponse r :: map RemoteData chunks ++ [RemoteEnd; UnzipCallback])) =
    [ WriteHead 500 "Data Stream Parse Error" server_headers;
      Write "Violentproxy could not complete your request because there is a data stream parsing error.";
      End ]
  /\ st_remoteRes
       (run (engine localReq)
            (UpResponse r :: map RemoteData chunks ++ [RemoteEnd; UnzipCallback])) = Some r.
Proof.
  intros Hreq Henc Hz. destruct (engine_proxied _ Hreq) as (options & h & res & _ & _ & ->).
  rewrite app_comm_cons, run_app, run_response_data by reflexivity.
  change (run ?s [RemoteEnd; UnzipCallback])
    with (dispatch (dispatch s RemoteEnd) UnzipCallback).
  rewrite (dispatch_end_compressed _ r chunks) by (try reflexivity; assumption).
  rewrite (dispatch_unzip _ (concat chunks) []) by reflexivity.
  rewrite Hz. split; reflexivity.
Qed.

(** X3: when the upstream response stream fails after any number of chunks,
    the client gets exactly the 500 "Data Stream Read Error" response and
    none of the chunks. *)
Theorem stream_error_response (localReq : IncomingRequest) (r : RemoteRes)
    (chunks : list Buffer) :
  st_request (engine localReq) <> None ->
  st_localRes
    (run (engine localReq) (UpResponse r :: map RemoteData chunks ++ [RemoteError])) =
    [ WriteHead 500 "Data Stream Read Error" server_headers;
      Write "Violentproxy could not complete your request because there is a data stream read error.";
      End ].
Proof.
  intros Hreq. destruct (engine_proxied _ Hreq) as (options & h & res & _ & _ & ->).
  rewrite app_comm_cons, run_app, run_response_data by reflexivity.
  reflexivity.
Qed.

(** ** The outcomes of the request provider *)

(** X4: [Deny] and [Redirect] do what [Allow] does: when [request] accepts
    the options, nothing is written, nothing is thrown, and the same
    upstream request is made. *)
Theorem deny_redirect_proxied (localReq : IncomingRequest) (options : UrlObject) :
  url_parse (req_url localReq) = Returns options ->
  st_policy (engine localReq) = Some requestResult.Deny \/
  st_policy (engine localReq) = Some requestResult.Redirect ->
  request_error
    (if decide (url_protocol options = Some "https:") then Https else Http)
    options
    (<["accept-encoding" := "gzip, deflate"]>
       (requestPatchingProvider (req_headers localReq) (req_url localReq)).1) = None ->
  st_localRes (engine localReq) = []
  /\ st_crashed (engine localReq) = None
  /\ st_request (engine localReq) = Some
       {| cr_transport :=
            if decide (url_protocol options = Some "https:") then Https else Http;
          cr_options := options;
          cr_headers :=
            <["accept-encoding" := "gzip, deflate"]>
              (requestPatchingProvider (req_headers localReq) (req_url localReq)).1;
          cr_method := None;
          cr_body := [];
          cr_ended := true;
          cr_aborted := false |}.
Proof.
  intros Hu Hpol Hr.
  destruct (String.prefix "http" (req_url localReq)) eqn:Hp;
    [|rewrite (engine_not_http _ _ Hu Hp) in Hpol; destruct Hpol as [H|H]; discriminate H].
  revert Hpol Hr. unfold engine. rewrite Hu, Hp. simpl.
  destruct (requestPatchingProvider _ _) as [headers result]. simpl.
  fold (transport_of options).
  destruct (Z.eqb_spec result requestResult.Allow) as [->|Ha].
  { unfold proxy. destruct (request_error _ _ _); intros [H|H]; discriminate H. }
  destruct (Z.eqb_spec result requestResult.Empty) as [->|He];
    [intros [H|H]; discriminate H|].
  destruct (Z.eqb_spec result requestResult.Deny) as [->|Hd].
  { intros _ Hr. unfold proxy. simpl. rewrite Hr. repeat split. }
  destruct (Z.eqb_spec result requestResult.Redirect) as [->|Hr'].
  { intros _ Hr. unfold proxy. simpl. rewrite Hr. repeat split. }
  simpl. intros [H|H]; injection H as ->; contradiction.
Qed.

(** X5: a result that is none of the four enumerated ones is thrown: the
    process handler gets "Unexpected request result", no upstream request
    is made and nothing is ever written to the client. *)
Theorem unexpected_result_thrown (localReq : IncomingRequest) (result : Z) :
  st_policy (engine localReq) = Some result ->
  result <> requestResult.Allow -> result <> requestResult.Empty ->
  result <> requestResult.Deny -> result <> requestResult.Redirect ->
  st_crashed (engine localReq) = Some "Unexpected request result"
  /\ forall evs : list Event,
       st_localRes (run (engine localReq) evs) = []
       /\ st_request (run (engine localReq) evs) = None.
Proof.
  intros Hpol Ha He Hd Hr.
  destruct (url_parse (req_url localReq)) as [options|err] eqn:Hu;
    [|rewrite (engine_throws _ _ Hu) in Hpol; discriminate Hpol].
  destruct (String.prefix "http" (req_url localReq)) eqn:Hp;
    [|rewrite (engine_not_http _ _ Hu Hp) in Hpol; discriminate Hpol].
  revert Hpol. unfold engine. rewrite Hu, Hp. simpl.
  destruct (requestPatchingProvider _ _) as [headers result']. simpl.
  destruct (Z.eqb_spec result' requestResult.Allow) as [->|Ha'].
  { unfold proxy. destruct (request_error _ _ _); simpl;
      intros H; injection H as <-; contradiction. }
  destruct (Z.eqb_spec result' requestResult.Empty) as [->|He'];
    [simpl; intros H; injection H as <-; contradiction|].
  destruct (Z.eqb_spec result' requestResult.Deny) as [->|Hd'].
  { unfold proxy. destruct (request_error _ _ _); simpl;
      intros H; injection H as <-; contradiction. }
  destruct (Z.eqb_spec result' requestResult.Redirect) as [->|Hr'].
  { unfold proxy. destruct (request_error _ _ _); simpl;
      intros H; injection H as <-; contradiction. }
  intros _. split; [reflexivity|]. intros evs.
  match goal with |- st_localRes (run ?s _) = _ /\ _ =>
    destruct (run_deaf evs s) as [-> ->]; try reflexivity end.
  split; reflexivity.
Qed.

(** X6: a target that does not start with "http", or that [url.parse]
    refuses, never reaches the request provider and leaves the client's
    request object alone; for a parsed target that starts with "http" the
    provider runs, and whatever it returns and whatever it wrote under
    "accept-encoding", that header is then "gzip, deflate" and the other
    headers are as the provider left them. *)
Theorem accept_encoding_forced (localReq : IncomingRequest) :
  (String.prefix "http" (req_url localReq) = false \/
   (exists err, url_parse (req_url localReq) = Throws err) ->
   st_policy (engine localReq) = None
   /\ st_localReq (engine localReq) = localReq)
  /\
  (forall options : UrlObject,
     url_parse (req_url localReq) = Returns options ->
     String.prefix "http" (req_url localReq) = true ->
     let pr := requestPatchingProvider (req_headers localReq) (req_url localReq) in
     st_policy (engine localReq) = Some pr.2
     /\ req_headers (st_localReq (engine localReq)) !! "accept-encoding"
          = Some "gzip, deflate"
     /\ forall k : string, k <> "accept-encoding" ->
          req_headers (st_localReq (engine localReq)) !! k = pr.1 !! k).
Proof.
  split.
  - intros Hno.
    destruct (url_parse (req_url localReq)) as [options|err] eqn:Hu;
      [|rewrite (engine_throws _ _ Hu); split; reflexivity].
    destruct Hno as [Hp | [err He]]; [|discriminate He].
    rewrite (engine_not_http _ _ Hu Hp). split; reflexivity.
  - intros options Hu Hp pr.
    assert (st_policy (engine localReq) = Some pr.2 /\
            req_headers (st_localReq (engine localReq)) =
              <["accept-encoding" := "gzip, deflate"]> pr.1) as [Hpol Hh].
    { destruct (engine_http localReq options Hu Hp) as [[_ E]|[[_ E]|[_ E]]];
        rewrite E; unfold proxy; try destruct (request_error _ _ _);
        split; reflexivity. }
    rewrite Hpol, Hh. split; [reflexivity|]. split.
    + apply lookup_insert_eq.
    + intros k Hk. apply lookup_insert_ne. congruence.
Qed.

(** X16: the call of [request] is not guarded: when it throws for the options
    of a target the provider let through (a protocol that is neither "http:"
    nor "https:", for one), the error goes to the process handler, no
    upstream request exists and nothing is written to the client, then or
    later. *)
Theorem request_throw_unanswered (localReq : IncomingRequest) (options : UrlObject)
    (err : string) :
  url_parse (req_url localReq) = Returns options ->
  String.prefix "http" (req_url localReq) = true ->
  (requestPatchingProvider (req_headers localReq) (req_url localReq)).2
    = requestResult.Allow \/
  (requestPatchingProvider (req_headers localReq) (req_url localReq)).2
    = requestResult.Deny \/
  (requestPatchingProvider (req_headers localReq) (req_url localReq)).2
    = requestResult.Redirect ->
  request_error
    (if decide (url_protocol options = Some "https:") then Https else Http)
    options
    (<["accept-encoding" := "gzip, deflate"]>
       (requestPatchingProvider (req_headers localReq) (req_url localReq)).1) = Some err ->
  st_crashed (engine localReq) = Some err
  /\ forall evs : list Event,
       st_localRes (run (engine localReq) evs) = []
       /\ st_request (run (engine localReq) evs) = None.
Proof.
  intros Hu Hp Hres Hr.
  assert (engine localReq =
            uncaughtException err
              (set_policy
                 (<["accept-encoding" := "gzip, deflate"]>
                    (requestPatchingProvider (req_headers localReq) (req_url localReq)).1)
                 (requestPatchingProvider (req_headers localReq) (req_url localReq)).2
                 (init localReq))) as E.
  { revert Hres Hr. unfold engine. rewrite Hu, Hp. simpl.
    destruct (requestPatchingProvider _ _) as [headers result]. simpl.
    fold (transport_of options). intros Hres Hr.
    destruct Hres as [-> | [-> | ->]]; simpl; unfold proxy; simpl; rewrite Hr;
      reflexivity. }
  rewrite E. split; [reflexivity|]. intros evs.
  match goal with |- st_localRes (run ?s _) = _ /\ _ =>
    destruct (run_deaf evs s) as [-> ->]; try reflexivity end.
  split; reflexivity.
Qed.

End Responses.

(** * What holds after any events *)

Section Invariants.
Context `{RT : Runtime} `{PV : Providers}.

Lemma same_upstream_refl (st : State) : same_upstream st st.
Proof. left. reflexivity. Qed.

Lemma same_upstream_trans (st1 st2 st3 : State) :
  same_upstream st1 st2 -> same_upstream st2 st3 -> same_upstream st1 st3.
Proof.
  intros [E12 | (u & E1 & E2)] [E23 | (v & E2' & E3)].
  - left. congruence.
  - right. exists v. split; congruence.
  - right. exists u. split; congruence.
  - right. exists u. split; [assumption|].
    rewrite E3. rewrite E2 in E2'. injection E2' as <-. reflexivity.
Qed.

Lemma respond_same_upstream (calls : list ResCall) (st : State) :
  same_upstream st (respond calls st).
Proof. left. apply respond_fields. Qed.

Lemma finalize_same_upstream (r : RemoteRes) (url text : string) (st : State) :
  same_upstream st (finalize r url text st).
Proof. rewrite finalize_eq. left. rewrite (proj1 (respond_fields _ _)). reflexivity. Qed.

Ltac upstream_done :=
  first [ apply finalize_same_upstream
        | apply respond_same_upstream
        | left; reflexivity ].

Lemma on_clientAborted_same_upstream (st : State) :
  same_upstream st (on_clientAborted st).
Proof.
  unfold on_clientAborted. destruct (st_request st) as [request|] eqn:E.
  - right. exists request. split; [exact E | reflexivity].
  - upstream_done.
Qed.

(** One listener, whatever the event it is run for, leaves the upstream
    request or aborts it. *)
Lemma run_listener_same_upstream (ev : Event) (st : State)
    (l : Emitter * EventName * Listener) :
  same_upstream st (run_listener ev st l).
Proof.
  unfold run_listener. destruct (st_crashed st); [upstream_done|].
  destruct l as [[e n] k]; destruct k, ev; cbn -[respond finalize];
    try solve [upstream_done];
    try (unfold on_data; destruct (st_data st); solve [upstream_done]);
    try (unfold on_end; destruct (st_data st), (st_remoteRes st);
         try solve [upstream_done]; destruct (decide _);
         first [ solve [upstream_done]
               | left; rewrite (proj1 (respond_fields _ _)); reflexivity
               | rewrite finalize_eq; left;
                 rewrite (proj1 (respond_fields _ _)); reflexivity ]);
    try (unfold on_error; solve [upstream_done]);
    try (unfold on_aborted; solve [upstream_done]);
    try apply on_clientAborted_same_upstream.
Qed.

Lemma fold_listeners_same_upstream (ev : Event)
    (ls : list (Emitter * EventName * Listener)) : forall st : State,
  same_upstream st (fold_left (run_listener ev) ls st).
Proof.
  induction ls as [|l ls IH]; intros st; simpl; [apply same_upstream_refl|].
  eapply same_upstream_trans; [apply run_listener_same_upstream | apply IH].
Qed.

Lemma dispatch_same_upstream (st : State) (ev : Event) :
  same_upstream st (dispatch st ev).
Proof.
  unfold dispatch. destruct (st_crashed st); [upstream_done|].
  destruct (target ev) as [[e n]|].
  - unfold emit. destruct (List.filter _ _) as [|l ls] eqn:E.
    + destruct n; upstream_done.
    + apply fold_listeners_same_upstream.
  - destruct (st_unzip st) as [|job jobs]; [upstream_done|].
    unfold unzip_callback. destruct (zlib_unzip job).
    + destruct (st_remoteRes (set_unzip jobs st));
        [|left; reflexivity].
      rewrite finalize_eq. left. rewrite (proj1 (respond_fields _ _)). reflexivity.
    + left. rewrite (proj1 (respond_fields _ _)). reflexivity.
Qed.

Lemma run_same_upstream (evs : list Event) : forall st : State,
  same_upstream st (run st evs).
Proof.
  induction evs as [|ev evs IH]; intros st; simpl; [apply same_upstream_refl|].
  eapply same_upstream_trans; [apply dispatch_same_upstream | apply IH].
Qed.


(** X8: an upstream request is made by [engine] or never: no event creates
    one, replaces it, writes a body to it or changes its method, headers or
    target; the only change it ever sees is [abort()]. *)
Theorem upstream_request_fixed (localReq : IncomingRequest) (evs : list Event) :
  (st_request (engine localReq) = None ->
   st_request (run (engine localReq) evs) = None)
  /\
  (forall request : ClientRequest,
     st_request (engine localReq) = Some request ->
     (st_request (run (engine localReq) evs) = Some request \/
      st_request (run (engine localReq) evs) = Some (abort request))
     /\ cr_method request = None
     /\ cr_body request = []
     /\ cr_ended request = true
     /\ cr_aborted request = false).
Proof.
  pose proof (run_same_upstream evs (engine localReq)) as Hu.
  split.
  - intros Hnone. destruct Hu as [E | (u & E & _)]; congruence.
  - intros request Hreq.
    split.
    + destruct Hu as [E | (u & E & E')]; [left; congruence|].
      right. rewrite E'. congruence.
    + assert (st_request (engine localReq) <> None) as Hne by congruence.
      destruct (engine_proxied _ Hne) as (options & h & res & _ & _ & E).
      rewrite E in Hreq.
      injection Hreq as <-. repeat split.
Qed.

Lemma dispatch_quiet (st : State) (ev : Event) :
  in_flight st -> quiet ev = true ->
  st_localRes (dispatch st ev) = st_localRes st.
Proof.
  destruct st as [lreq lres pol req rres dat jobs ls cr].
  unfold in_flight. simpl. intros [_ Hl] Hq.
  destruct cr as [err|]; [reflexivity|].
  destruct Hl as [[-> _]|[-> _]]; destruct ev; try discriminate Hq;
    unfold dispatch, emit, run_listener; simpl; try reflexivity.
  - unfold on_clientAborted. simpl. destruct req; reflexivity.
  - unfold on_data. simpl. destruct dat; reflexivity.
  - unfold on_clientAborted. simpl. destruct req; reflexivity.
Qed.

Lemma run_quiet (evs : list Event) : forall st : State,
  in_flight st -> forallb quiet evs = true ->
  st_localRes (run st evs) = st_localRes st.
Proof.
  induction evs as [|ev evs IH]; intros st Hin Hq; [reflexivity|].
  simpl in Hq. apply andb_prop in Hq as [Hev Hevs]. simpl.
  rewrite IH; [apply dispatch_quiet | apply dispatch_in_flight | ]; assumption.
Qed.

(** X9: as long as only the response, its chunks and client disconnects
    arrive, in any number and order, nothing is written to the client: the
    engine answers a proxied request only on a terminal event of the
    upstream response. *)
Theorem nothing_written_before_terminal_event (localReq : IncomingRequest)
    (evs : list Event) :
  st_request (engine localReq) <> None ->
  forallb quiet evs = true ->
  st_localRes (run (engine localReq) evs) = [].
Proof.
  intros Hreq Hq.
  rewrite (run_quiet evs _ (engine_in_flight _ Hreq) Hq).
  destruct (engine_proxied _ Hreq) as (options & h & res & _ & _ & ->). reflexivity.
Qed.

End Invariants.

(** * The default response provider *)

Lemma string_app_cons (x : ascii) (a b : string) :
  (String x a ++ b)%string = String x (a ++ b)%string.
Proof. reflexivity. Qed.

Lemma string_app_nil_l (a : string) : ("" ++ a)%string = a.
Proof. reflexivity. Qed.

Lemma string_app_assoc (a b c : string) :
  ((a ++ b) ++ c = a ++ (b ++ c))%string.
Proof.
  induction a as [|x a IH]; [reflexivity|].
  rewrite !string_app_cons; cbn; rewrite ?string_app_cons; f_equal; exact IH.
Qed.

Lemma string_app_nil_r (a : string) : (a ++ "")%string = a.
Proof.
  induction a as [|x a IH]; [reflexivity|].
  rewrite !string_app_cons; cbn; rewrite ?string_app_cons; f_equal; exact IH.
Qed.

Lemma string_app_length (a b : string) :
  String.length (a ++ b)%string = (String.length a + String.length b)%nat.
Proof.
  induction a as [|x a IH]; [reflexivity|].
  rewrite !string_app_cons; cbn; rewrite ?string_app_cons; f_equal; exact IH.
Qed.

Lemma list_ascii_app (a b : string) :
  list_ascii_of_string (a ++ b)%string =
    list_ascii_of_string a ++ list_ascii_of_string b.
Proof.
  induction a as [|x a IH]; [reflexivity|].
  rewrite !string_app_cons; cbn; rewrite ?string_app_cons; f_equal; exact IH.
Qed.

Lemma lower_string_cons (c : ascii) (s : string) :
  lower_string (String c s) = String (to_lower c) (lower_string s).
Proof. reflexivity. Qed.

Lemma to_lower_idem (c : ascii) : to_lower (to_lower c) = to_lower c.
Proof. destruct c as [[] [] [] [] [] [] [] []]; reflexivity. Qed.

Lemma to_lower_lt (c : ascii) : to_lower c = "<"%char -> c = "<"%char.
Proof. destruct c as [[] [] [] [] [] [] [] []]; vm_compute; congruence. Qed.

(** [strip_prefix_ci p] takes off exactly the texts that read [p] when letter
    case is ignored. *)
Lemma strip_prefix_ci_sound (p : string) : forall s m rest : string,
  strip_prefix_ci p s = Some (m, rest) ->
  s = (m ++ rest)%string /\ lower_string m = lower_string p.
Proof.
  induction p as [|a p IH]; intros s m rest; simpl.
  - intros [= <- <-]. split; reflexivity.
  - destruct s as [|b s]; [discriminate|].
    destruct (Ascii.eqb_spec (to_lower a) (to_lower b)) as [E|]; [|discriminate].
    destruct (strip_prefix_ci p s) as [[m' rest']|] eqn:Hs; [|discriminate].
    intros [= <- <-]. destruct (IH _ _ _ Hs) as [-> Hl].
    split; [reflexivity|]. rewrite !lower_string_cons, Hl, E. reflexivity.
Qed.

Lemma strip_prefix_ci_complete (p : string) : forall m rest : string,
  lower_string m = lower_string p ->
  strip_prefix_ci p (m ++ rest) = Some (m, rest).
Proof.
  induction p as [|a p IH]; intros m rest Hl.
  - destruct m; [reflexivity | discriminate Hl].
  - destruct m as [|b m]; [discriminate Hl|].
    rewrite !lower_string_cons in Hl. injection Hl as Hb Hm.
    simpl. rewrite Hb, Ascii.eqb_refl, (IH _ _ Hm). reflexivity.
Qed.

(** [up_to_gt] stops at the first [>]. *)
Lemma up_to_gt_sound (s : string) : forall m rest : string,
  up_to_gt s = Some (m, rest) ->
  exists attrs : string,
    m = (attrs ++ ">")%string /\ s = (m ++ rest)%string
    /\ ~ In ">"%char (list_ascii_of_string attrs).
Proof.
  induction s as [|c s IH]; intros m rest; simpl; [discriminate|].
  destruct (Ascii.eqb_spec c ">") as [->|Hc].
  - intros [= <- <-]. exists ""%string. repeat split. intros [].
  - destruct (up_to_gt s) as [[m' rest']|] eqn:Hs; [|discriminate].
    intros [= <- <-]. destruct (IH _ _ eq_refl) as (attrs & -> & -> & Hno).
    exists (String c attrs). repeat split.
    simpl. intros [E | Hin]; [congruence | contradiction].
Qed.

Lemma up_to_gt_complete (attrs : string) : forall rest : string,
  ~ In ">"%char (list_ascii_of_string attrs) ->
  up_to_gt ((attrs ++ ">") ++ rest) = Some ((attrs ++ ">")%string, rest).
Proof.
  induction attrs as [|c attrs IH]; intros rest Hno; [reflexivity|].
  simpl in *. destruct (Ascii.eqb_spec c ">") as [->|Hc]; [tauto|].
  rewrite IH by tauto. reflexivity.
Qed.

Lemma match_head_sound (s m rest : string) :
  match_head s = Some (m, rest) -> s = (m ++ rest)%string /\ head_tag m.
Proof.
  unfold match_head, head_tag.
  destruct (strip_prefix_ci "<head" s) as [[tag after]|] eqn:Ht; [|discriminate].
  destruct (up_to_gt after) as [[attrs' rest']|] eqn:Ha; [|discriminate].
  intros [= <- <-].
  destruct (strip_prefix_ci_sound _ _ _ _ Ht) as [-> Hl].
  destruct (up_to_gt_sound _ _ _ Ha) as (attrs & -> & -> & Hno).
  split; [symmetry; apply string_app_assoc|].
  exists tag, attrs. repeat split; assumption.
Qed.

Lemma match_head_complete (m rest : string) :
  head_tag m -> match_head (m ++ rest) = Some (m, rest).
Proof.
  unfold match_head. intros (tag & attrs & -> & Hl & Hno).
  rewrite string_app_assoc.
  rewrite (strip_prefix_ci_complete "<head" tag) by exact Hl.
  rewrite (up_to_gt_complete attrs rest Hno). reflexivity.
Qed.

(** X10: the matcher of the default response provider finds, at the start of
    a text, exactly what the pattern [<head[^>]*>] with flag [i] describes:
    "<head" in any letter case, then characters other than [>], then [>];
    and at one place there is at most one such match. *)
Theorem match_head_iff (s m rest : string) :
  (match_head s = Some (m, rest) <-> s = (m ++ rest)%string /\ head_tag m)
  /\ (forall m' rest' : string,
       s = (m ++ rest)%string -> head_tag m ->
       s = (m' ++ rest')%string -> head_tag m' -> m' = m /\ rest' = rest).
Proof.
  split.
  - split; [apply match_head_sound|].
    intros [-> Hm]. apply match_head_complete, Hm.
  - intros m' rest' E Hm E' Hm'.
    pose proof (match_head_complete m rest Hm) as H1.
    pose proof (match_head_complete m' rest' Hm') as H2.
    rewrite <- E in H1. rewrite <- E' in H2. rewrite H1 in H2.
    injection H2 as -> ->. split; reflexivity.
Qed.

Lemma inject_unfold (text : string) :
  inject_after_head text =
    match match_head text with
    | Some (m, rest) => (m ++ hello_script ++ rest)%string
    | None =>
        match text with
        | EmptyString => EmptyString
        | String c text' => String c (inject_after_head text')
        end
    end.
Proof. destruct text; reflexivity. Qed.

(** The two ways [inject_after_head] ends, in terms of the matcher. *)
Lemma inject_cases (text : string) :
  (inject_after_head text = text /\
   forall pre suf : string, text = (pre ++ suf)%string -> match_head suf = None)
  \/
  (exists pre m rest : string,
     text = (pre ++ m ++ rest)%string
     /\ match_head (m ++ rest) = Some (m, rest)
     /\ inject_after_head text = (pre ++ m ++ hello_script ++ rest)%string
     /\ forall pre' suf' : string,
          text = (pre' ++ suf')%string ->
          (String.length pre' < String.length pre)%nat -> match_head suf' = None).
Proof.
  induction text as [|c text IH].
  - left. split; [reflexivity|]. intros [|x pre] suf E; [|discriminate E].
    rewrite string_app_nil_l in E. subst suf. reflexivity.
  - rewrite inject_unfold.
    destruct (match_head (String c text)) as [[m rest]|] eqn:Hm.
    + right. exists ""%string, m, rest.
      pose proof (match_head_sound _ _ _ Hm) as [E _].
      split; [exact E|]. split; [rewrite <- E; exact Hm|].
      split; [reflexivity|]. intros pre' suf' _ Hlt. simpl in Hlt. lia.
    + destruct IH as [[Hid Hnone] | (pre & m & rest & E & Hmatch & Hinj & Hleft)].
      * left. split; [rewrite Hid; reflexivity|].
        intros [|x pre] suf Es.
        -- rewrite string_app_nil_l in Es. subst suf. exact Hm.
        -- rewrite string_app_cons in Es. injection Es as _ Es. eapply Hnone, Es.
      * right. exists (String c pre), m, rest.
        split; [rewrite string_app_cons, <- E; reflexivity|].
        split; [exact Hmatch|].
        split; [rewrite Hinj; reflexivity|].
        intros [|x pre'] suf' Es Hlt.
        -- rewrite string_app_nil_l in Es. subst suf'. exact Hm.
        -- rewrite string_app_cons in Es. injection Es as _ Es.
           apply (Hleft pre' suf' Es). simpl in Hlt. lia.
Qed.

Lemma occurrence_matches (before m text : string) :
  head_tag m -> occurs_after before m text ->
  exists suf, text = (before ++ suf)%string /\ match_head suf <> None.
Proof.
  intros Hm [after ->]. exists (m ++ after)%string. split; [reflexivity|].
  rewrite (match_head_complete m after Hm).
  discriminate.
Qed.

(** X11: the default response provider puts its script right after the
    leftmost [<head ...>] tag of the text and changes nothing else; a text
    in which no such tag occurs is returned as it is. *)
Theorem inject_after_leftmost_head (text : string) :
  (inject_after_head text = text /\
   forall before m : string, head_tag m -> ~ occurs_after before m text)
  \/
  (exists before m after : string,
     text = (before ++ m ++ after)%string
     /\ head_tag m
     /\ inject_after_head text = (before ++ m ++ hello_script ++ after)%string
     /\ forall before' m' : string,
          head_tag m' -> occurs_after before' m' text ->
          (String.length before <= String.length before')%nat).
Proof.
  destruct (inject_cases text) as [[Hid Hnone] | (pre & m & rest & E & Hm & Hinj & Hleft)].
  - left. split; [exact Hid|]. intros before m Hm Hocc.
    destruct (occurrence_matches _ _ _ Hm Hocc) as (suf & E & Hsome).
    apply Hsome, (Hnone before), E.
  - right. exists pre, m, rest. split; [exact E|].
    split; [apply (match_head_sound _ _ _ Hm)|].
    split; [exact Hinj|].
    intros before' m' Hm' Hocc.
    destruct (occurrence_matches _ _ _ Hm' Hocc) as (suf & E' & Hsome).
    destruct (Nat.le_gt_cases (String.length pre) (String.length before')) as [Hle|Hlt];
      [exact Hle|].
    exfalso. apply Hsome, (Hleft before'); assumption.
Qed.

Lemma head_tag_brackets (m : string) :
  head_tag m ->
  In "<"%char (list_ascii_of_string m) /\ In ">"%char (list_ascii_of_string m).
Proof.
  intros (tag & attrs & -> & Hl & _). rewrite !list_ascii_app. split.
  - destruct tag as [|b tag]; [discriminate Hl|].
    rewrite lower_string_cons in Hl. injection Hl as Hb _.
    apply to_lower_lt in Hb. subst b. left. reflexivity.
  - apply in_or_app. right. apply in_or_app. right. left. reflexivity.
Qed.

Lemma inject_without_brackets_aux (text : string) :
  ~ In "<"%char (list_ascii_of_string text) \/
  ~ In ">"%char (list_ascii_of_string text) ->
  inject_after_head text = text.
Proof.
  intros Hno.
  destruct (inject_cases text) as [[Hid _] | (pre & m & rest & E & Hm & _)];
    [exact Hid|].
  exfalso.
  destruct (head_tag_brackets m (proj2 (match_head_sound _ _ _ Hm))) as [Hlt Hgt].
  assert (forall c, In c (list_ascii_of_string m) -> In c (list_ascii_of_string text)) as Hin.
  { intros c Hc. rewrite E, !list_ascii_app.
    apply in_or_app. right. apply in_or_app. left. exact Hc. }
  destruct Hno as [Hno | Hno]; apply Hno, Hin; assumption.
Qed.

(** X12: the default response provider never touches the headers, and a
    text without the character [<], or without the character [>] (plain
    text, JSON, most binary data read as text), comes back unchanged. *)
Theorem default_response_provider_plain (headers : Headers) (url text : string) :
  (responsePatchingProvider (Providers := default_providers) headers url text).1 = headers
  /\ (~ In "<"%char (list_ascii_of_string text) \/
      ~ In ">"%char (list_ascii_of_string text) ->
      responsePatchingProvider (Providers := default_providers) headers url text
        = (headers, text)).
Proof.
  split; [reflexivity|]. intros Hno. simpl.
  rewrite (inject_without_brackets_aux _ Hno). reflexivity.
Qed.



(** * The providers the module ships, in the engine *)

Section Shipped.
Context `{RT : Runtime}.
#[local] Existing Instance default_providers.

(** X13: with the request provider the module ships, every parsed target
    that starts with "http" and whose options [request] accepts is proxied:
    nothing is written, nothing is thrown, and the upstream request carries
    the client's headers with accept-encoding set to "gzip, deflate" and
    nothing else changed. *)
Theorem shipped_request_provider_proxies (localReq : IncomingRequest)
    (options : UrlObject) :
  url_parse (req_url localReq) = Returns options ->
  String.prefix "http" (req_url localReq) = true ->
  request_error
    (if decide (url_protocol options = Some "https:") then Https else Http)
    options
    (<["accept-encoding" := "gzip, deflate"]> (req_headers localReq)) = None ->
  st_policy (engine localReq) = Some requestResult.Allow
  /\ st_localRes (engine localReq) = []
  /\ st_crashed (engine localReq) = None
  /\ st_request (engine localReq) = Some
       {| cr_transport :=
            if decide (url_protocol options = Some "https:") then Https else Http;
          cr_options := options;
          cr_headers := <["accept-encoding" := "gzip, deflate"]> (req_headers localReq);
          cr_method := None;
          cr_body := [];
          cr_ended := true;
          cr_aborted := false |}.
Proof.
  intros Hu Hp Hr. unfold engine. rewrite Hu, Hp. simpl. unfold proxy. simpl.
  fold (transport_of options) in Hr. rewrite Hr. repeat split.
Qed.


End Shipped.

(** * [start] *)

(** X15: [start] never listens on port 0: a port that is missing or 0 becomes
    12345, any other port is used as given; the server is a TLS server
    exactly when a certificate is configured, and a missing configuration
    is an empty one. *)
Theorem start_port_and_transport (Cert : Type) (config : option (Config Cert)) :
  srv_port (start config) <> 0
  /\ (forall (c : Config Cert) (p : Z),
        config = Some c -> cfg_port c = Some p -> p <> 0 -> srv_port (start config) = p)
  /\ (config = None \/
      (exists c, config = Some c /\ (cfg_port c = None \/ cfg_port c = Some 0)) ->
      srv_port (start config) = 12345)
  /\ (forall cert : Cert,
        srv_kind (start config) = TlsServer cert <->
        exists c, config = Some c /\ cfg_cert c = Some cert)
  /\ (config = None -> start config = {| srv_kind := PlainServer; srv_port := 12345 |}).
Proof.
  destruct config as [[port rules cert]|]; unfold start; simpl.
  - split.
    { destruct port as [p|]; [|discriminate].
      destruct (Z.eqb_spec p 0); [discriminate | assumption]. }
    split.
    { intros c p [= <-] Hport Hp. simpl in Hport. subst port.
      destruct (Z.eqb_spec p 0); [contradiction | reflexivity]. }
    split.
    { intros [H | (c & [= <-] & [Hport | Hport])]; [discriminate H| |];
        simpl in Hport; subst port; reflexivity. }
    split; [|discriminate].
    intros crt. split.
    + destruct cert as [crt'|]; [|discriminate].
      intros [= ->]. eexists. split; reflexivity.
    + intros (c & [= <-] & Hcert). simpl in Hcert. subst cert. reflexivity.
  - split; [discriminate|].
    split; [intros c p H; discriminate H|].
    split; [reflexivity|].
    split; [|reflexivity].
    intros crt. split; [discriminate|]. intros (c & H & _). discriminate H.
Qed.

(** * More of the engine on concrete requests *)

Section MoreExamples.
#[local] Existing Instance sample_runtime.
#[local] Existing Instance default_providers.



Lemma decode_failure_response_witness :
  st_request (engine get_example) <> None
  /\ res_headers gzip_response !! "content-encoding" = Some "gzip"
  /\ zlib_unzip (concat [page_bytes]) = None
  /\ st_localRes
       (run (engine get_example)
            (UpResponse gzip_response :: map RemoteData [page_bytes]
               ++ [RemoteEnd; UnzipCallback])) =
       [ WriteHead 500 "Data Stream Parse Error" server_headers;
         Write "Violentproxy could not complete your request because there is a data stream parsing error.";
         End ]
  /\ st_remoteRes
       (run (engine get_example)
            (UpResponse gzip_response :: map RemoteData [page_bytes]
               ++ [RemoteEnd; UnzipCallback])) = Some gzip_response.
Proof.
  split; [exact get_example_proxied|].
  split; [reflexivity|].
  split; [reflexivity|].
  apply (decode_failure_response get_example gzip_response [page_bytes]).
  - exact get_example_proxied.
  - left. reflexivity.
  - reflexivity.
Defined.

Lemma stream_error_response_witness :
  st_request (engine get_example) <> None
  /\ st_localRes
       (run (engine get_example)
            (UpResponse gzip_response :: map RemoteData [gzip_page] ++ [RemoteError])) =
       [ WriteHead 500 "Data Stream Read Error" server_headers;
         Write "Violentproxy could not complete your request because there is a data stream read error.";
         End ].
Proof.
  split; [exact get_example_proxied|].
  exact (stream_error_response get_example gzip_response [gzip_page] get_example_proxied).
Defined.

Lemma deny_redirect_proxied_witness :
  url_parse (req_url post_example) = Returns (req_url post_example)
  /\ st_policy (engine (PV := deny_providers) post_example) = Some requestResult.Deny
  /\ request_error Https (req_url post_example)
       (<["accept-encoding" := "gzip, deflate"]> (req_headers post_example)) = None
  /\ st_localRes (engine (PV := deny_providers) post_example) = []
  /\ st_crashed (engine (PV := deny_providers) post_example) = None
  /\ st_request (engine (PV := deny_providers) post_example) = Some
       {| cr_transport := Https;
          cr_options := req_url post_example;
          cr_headers :=
            <["accept-encoding" := "gzip, deflate"]> (req_headers post_example);
          cr_method := None;
          cr_body := [];
          cr_ended := true;
          cr_aborted := false |}.
Proof.
  split; [reflexivity|]. split; [reflexivity|]. split; [reflexivity|].
  destruct (deny_redirect_proxied (RT := sample_runtime) (PV := deny_providers)
              post_example (req_url post_example))
    as (Hlog & Hcrash & Hreq); [reflexivity | left; reflexivity | reflexivity |].
  split; [exact Hlog|]. split; [exact Hcrash|].
  rewrite Hreq. reflexivity.
Defined.

Lemma unexpected_result_thrown_witness :
  st_policy (engine (PV := odd_providers) get_example) = Some 7
  /\ st_crashed (engine (PV := odd_providers) get_example) = Some "Unexpected request result"
  /\ st_localRes (run (PV := odd_providers) (engine (PV := odd_providers) get_example)
                      [UpResponse plain_response; RemoteEnd]) = []
  /\ st_request (run (PV := odd_providers) (engine (PV := odd_providers) get_example)
                     [UpResponse plain_response; RemoteEnd]) = None.
Proof.
  split; [reflexivity|].
  destruct (unexpected_result_thrown (PV := odd_providers) get_example 7)
    as [Hcrash Hafter]; try reflexivity; try discriminate.
  split; [exact Hcrash|].
  exact (Hafter [UpResponse plain_response; RemoteEnd]).
Defined.

Lemma accept_encoding_forced_witness :
  String.prefix "http" (req_url relative_example) = false
  /\ st_localReq (engine relative_example) = relative_example
  /\ url_parse (req_url post_example) = Returns (req_url post_example)
  /\ String.prefix "http" (req_url post_example) = true
  /\ req_headers (st_localReq (engine post_example)) !! "accept-encoding"
       = Some "gzip, deflate"
  /\ req_headers (st_localReq (engine post_example)) !! "host" = Some "example.test".
Proof.
  split; [reflexivity|].
  split; [apply (proj1 (accept_encoding_forced relative_example)); left; reflexivity|].
  split; [reflexivity|]. split; [reflexivity|].
  destruct (proj2 (accept_encoding_forced (RT := sample_runtime) post_example)
                  (req_url post_example) eq_refl eq_refl) as (_ & Hae & Hother).
  split; [exact Hae|].
  rewrite (Hother "host") by discriminate. vm_compute. reflexivity.
Defined.


Lemma upstream_request_fixed_witness :
  st_request (engine relative_example) = None
  /\ st_request (run (engine relative_example) [UpResponse plain_response; ClientAborted]) = None
  /\ exists request,
       st_request (engine get_example) = Some request
       /\ (st_request (run (engine get_example)
                           [UpResponse plain_response; ClientAborted; RemoteAborted])
             = Some request \/
           st_request (run (engine get_example)
                           [UpResponse plain_response; ClientAborted; RemoteAborted])
             = Some (abort request))
       /\ cr_body request = [].
Proof.
  split; [reflexivity|].
  split.
  { apply (proj1 (upstream_request_fixed relative_example
                    [UpResponse plain_response; ClientAborted])). reflexivity. }
  pose proof get_example_proxied as Hne.
  destruct (st_request (engine get_example)) as [request|] eqn:E; [|contradiction].
  exists request. split; [reflexivity|].
  destruct (proj2 (upstream_request_fixed get_example
                     [UpResponse plain_response; ClientAborted; RemoteAborted])
                  request E) as (Hsame & _ & Hbody & _).
  split; [exact Hsame | exact Hbody].
Defined.

Lemma nothing_written_before_terminal_event_witness :
  st_request (engine get_example) <> None
  /\ forallb quiet [UpResponse gzip_response; ClientAborted; RemoteData gzip_page;
                    RemoteData page_bytes; ClientAborted] = true
  /\ st_localRes
       (run (engine get_example)
            [UpResponse gzip_response; ClientAborted; RemoteData gzip_page;
             RemoteData page_bytes; ClientAborted]) = [].
Proof.
  split; [exact get_example_proxied|].
  split; [reflexivity|].
  apply nothing_written_before_terminal_event; [exact get_example_proxied | reflexivity].
Defined.

Lemma match_head_iff_witness :
  match_head "<HEAD lang=en><title>" = Some ("<HEAD lang=en>", "<title>")
  /\ head_tag "<HEAD lang=en>".
Proof.
  split; [reflexivity|].
  destruct (match_head_iff "<HEAD lang=en><title>" "<HEAD lang=en>" "<title>")
    as [[Hsound _] _].
  exact (proj2 (Hsound eq_refl)).
Defined.

Lemma inject_after_leftmost_head_witness :
  head_tag "<head>"
  /\ occurs_after "<html>" "<head>" "<html><head></head></html>"
  /\ inject_after_head "<html><head></head></html>" <> "<html><head></head></html>".
Proof.
  assert (head_tag "<head>") as Hm.
  { exists "<head"%string, ""%string.
    split; [reflexivity|]. split; [reflexivity|]. simpl. intros H. exact H. }
  assert (occurs_after "<html>" "<head>" "<html><head></head></html>") as Hocc.
  { exists "</head></html>"%string. reflexivity. }
  split; [exact Hm|]. split; [exact Hocc|].
  destruct (inject_after_leftmost_head "<html><head></head></html>")
    as [[_ Hnone] | (before & m & after & E & _ & Hinj & _)].
  - destruct (Hnone _ _ Hm Hocc).
  - rewrite Hinj, E. intros H.
    apply (f_equal String.length) in H. rewrite !string_app_length in H.
    vm_compute (String.length hello_script) in H. lia.
Defined.

Lemma default_response_provider_plain_witness :
  ~ In "<"%char (list_ascii_of_string "{}")
  /\ responsePatchingProvider (res_headers plain_response) "http://example.test/" "{}"
     = (res_headers plain_response, "{}"%string).
Proof.
  assert (~ In "<"%char (list_ascii_of_string "{}")) as Hno.
  { simpl. intros [H | [H | []]]; discriminate H. }
  split; [exact Hno|].
  apply (proj2 (default_response_provider_plain (res_headers plain_response)
                  "http://example.test/" "{}")).
  left. exact Hno.
Defined.

Lemma shipped_request_provider_proxies_witness :
  url_parse (req_url post_example) = Returns (req_url post_example)
  /\ String.prefix "http" (req_url post_example) = true
  /\ request_error Https (req_url post_example)
       (<["accept-encoding" := "gzip, deflate"]> (req_headers post_example)) = None
  /\ st_policy (engine post_example) = Some requestResult.Allow
  /\ st_localRes (engine post_example) = []
  /\ st_crashed (engine post_example) = None
  /\ st_request (engine post_example) = Some
       {| cr_transport := Https;
          cr_options := req_url post_example;
          cr_headers :=
            <["accept-encoding" := "gzip, deflate"]> (req_headers post_example);
          cr_method := None;
          cr_body := [];
          cr_ended := true;
          cr_aborted := false |}.
Proof.
  split; [reflexivity|]. split; [reflexivity|]. split; [reflexivity|].
  destruct (shipped_request_provider_proxies (RT := sample_runtime) post_example
              (req_url post_example) eq_refl eq_refl eq_refl)
    as (Hpol & Hlog & Hcrash & Hreq).
  split; [exact Hpol|]. split; [exact Hlog|]. split; [exact Hcrash|].
  rewrite Hreq. reflexivity.
Defined.


Lemma request_throw_unanswered_witness :
  url_parse (req_url httpx_example) = Returns (req_url httpx_example)
  /\ String.prefix "http" (req_url httpx_example) = true
  /\ request_error Http (req_url httpx_example)
       (<["accept-encoding" := "gzip, deflate"]> (req_headers httpx_example))
     = Some "ERR_INVALID_PROTOCOL"
  /\ st_crashed (engine httpx_example) = Some "ERR_INVALID_PROTOCOL"
  /\ st_localRes (run (engine httpx_example) [UpResponse plain_response; RemoteEnd]) = []
  /\ st_request (run (engine httpx_example) [UpResponse plain_response; RemoteEnd]) = None.
Proof.
  split; [reflexivity|]. split; [reflexivity|]. split; [reflexivity|].
  destruct (request_throw_unanswered (RT := sample_runtime) httpx_example
              (req_url httpx_example) "ERR_INVALID_PROTOCOL")
    as [Hcrash Hafter]; [reflexivity | reflexivity | left; reflexivity | reflexivity |].
  split; [exact Hcrash|]. exact (Hafter [UpResponse plain_response; RemoteEnd]).
Defined.

Lemma start_port_and_transport_witness :
  cfg_port port_zero_config = Some 0
  /\ srv_port (start (Some port_zero_config)) = 12345
  /\ srv_kind (start (Some port_zero_config)) = TlsServer "certificate"%string.
Proof.
  split; [reflexivity|].
  destruct (start_port_and_transport string (Some port_zero_config))
    as (_ & _ & Hdefault & Htls & _).
  split.
  - apply Hdefault. right. exists port_zero_config. split; [reflexivity|].
    right. reflexivity.
  - apply Htls. exists port_zero_config. split; reflexivity.
Defined.

End MoreExamples.
